(** * operator-marketplace: the on-disk manifest builder

    A shallow embedding of [pkg/catalogsourceconfig/manifest.go].  The
    builder turns a [SingleOperatorManifest] into the operator-registry
    directory layout: one package directory, one package descriptor, one
    bundle directory per cluster-service-version (CSV) holding the owned
    custom-resource-definitions (CRDs) and the CSV itself.

    The Go methods mutate the receiver ([b.manifestDir]) and the file
    system; here they are state transformers over a [state] that holds the
    receiver, the disk and a history of the calls made to the leaf helpers
    [createDir] and [createYAML] and to [os.RemoveAll]. *)

From Stdlib Require Import ZArith Ascii String.
From stdpp Require Import gmap strings list fin_maps.

Local Open Scope Z_scope.
Local Open Scope string_scope.

(** ** path/filepath (Unix) *)

Module filepath.

(** [strings.Split(s, "/")]: the separator-free pieces of [s]. *)
Fixpoint split (s : string) : list string :=
  match s with
  | EmptyString => [EmptyString]
  | String c r =>
      if Ascii.eqb c "/" then EmptyString :: split r
      else match split r with
           | h :: t => String c h :: t
           | [] => [String c EmptyString]
           end
  end.

(** [strings.Join(l, "/")]. *)
Fixpoint join (l : list string) : string :=
  match l with
  | [] => EmptyString
  | [c] => c
  | c :: r => c +:+ "/" +:+ join r
  end.

Definition rooted (p : string) : bool :=
  match p with
  | String c _ => Ascii.eqb c "/"
  | EmptyString => false
  end.

Definition is_dot (c : string) : bool := String.eqb c EmptyString || String.eqb c ".".
Definition is_dotdot (c : string) : bool := String.eqb c "..".

(** One element of the path read by [Clean]; [out] is the output so
    far, innermost element first.  Empty and [.] elements disappear, an
    inner [..] removes the element before it, a [..] at the start of a
    rooted path disappears and one at the start of a relative path
    stays. *)
Definition clean_step (r : bool) (out : list string) (c : string) : list string :=
  if is_dot c then out
  else if is_dotdot c then
    match out with
    | top :: rest => if is_dotdot top then c :: out else rest
    | [] => if r then [] else [c]
    end
  else c :: out.

Definition render (r : bool) (elems : list string) : string :=
  if r then "/" +:+ join elems
  else match elems with
       | [] => "."
       | _ => join elems
       end.

(** [filepath.Clean]. *)
Definition Clean (p : string) : string :=
  if String.eqb p EmptyString then "."
  else render (rooted p) (rev (fold_left (clean_step (rooted p)) (split p) [])).

(** [filepath.Join] at two elements, the only arity the builder uses:
    leading empty elements are dropped, the rest is joined by the
    separator and cleaned; all empty gives the empty string. *)
Definition Join (a b : string) : string :=
  if negb (String.eqb a EmptyString) then Clean (a +:+ "/" +:+ b)
  else if negb (String.eqb b EmptyString) then Clean b
  else EmptyString.

End filepath.

(** ** The operating system: a disk of directories and files

    Entries are keyed by their absolute path, as the list of its elements
    from the root (the root itself is [[]]).  There are no links.  The
    process is unprivileged and owns what it touches: creating or
    removing an entry needs the owner-write bit of the directory that
    holds it, overwriting a file needs the file's owner-write bit.  Read
    and search bits are not looked at.  The builder hands the system
    paths that [filepath.Join] has cleaned, so a walk has no [..] to
    take through a name that is missing. *)

Module OS.

Inductive Errno := ENOENT | EEXIST | ENOTDIR | EISDIR | EACCES.

(** [*os.PathError]. *)
Record PathError := { Op : string; Path : string; Err : Errno }.

Inductive node :=
| Dir (perm : Z)
| File (perm : Z) (data : string).

Record fs := {
  files : gmap (list string) node;
  cwd : list string;
  umask : Z
}.

Definition with_files (d : fs) (m : gmap (list string) node) : fs :=
  {| files := m; cwd := cwd d; umask := umask d |}.

(** Owner-write bit, 0200. *)
Definition writable (perm : Z) : bool := Z.testbit perm 7.

(** One element of a path walked by the kernel; [at_] is the directory
    reached so far, innermost element first. *)
Definition walk_step (at_ : list string) (c : string) : list string :=
  if filepath.is_dot c then at_
  else if filepath.is_dotdot c then tail at_
  else c :: at_.

(** Path resolution: the empty path names nothing, a rooted path is
    walked from the root and any other from the working directory. *)
Definition resolve (d : fs) (p : string) : option (list string) :=
  if String.eqb p EmptyString then None
  else Some (rev (fold_left walk_step (filepath.split p)
                    (if filepath.rooted p then [] else rev (cwd d)))).

Definition parent (k : list string) : list string := removelast k.

(** The directory holding entry [k] exists and is writable. *)
Definition parent_writable (m : gmap (list string) node) (k : list string) : bool :=
  match k with
  | [] => false
  | _ => match m !! parent k with
         | Some (Dir perm) => writable perm
         | _ => false
         end
  end.

(** [os.Mkdir(name, perm)]: the new directory gets [perm] less the
    umask.  It fails when the holding directory is missing or is a
    file, when the name is taken, and when the holding directory is not
    writable. *)
Definition Mkdir (name : string) (perm : Z) (d : fs) : PathError + fs :=
  let fail e := inl {| Op := "mkdir"; Path := name; Err := e |} in
  match resolve d name with
  | None => fail ENOENT
  | Some [] => fail EEXIST
  | Some k =>
      match files d !! parent k with
      | None => fail ENOENT
      | Some (File _ _) => fail ENOTDIR
      | Some (Dir pperm) =>
          match files d !! k with
          | Some _ => fail EEXIST
          | None =>
              if writable pperm
              then inr (with_files d (<[k := Dir (Z.ldiff perm (umask d))]> (files d)))
              else fail EACCES
          end
      end
  end.

(** [ioutil.WriteFile(filename, data, perm)], that is
    [OpenFile(filename, O_WRONLY|O_CREATE|O_TRUNC, perm)] and one write:
    a missing file is created with [perm] less the umask, an existing
    one is replaced and keeps its permissions. *)
Definition WriteFile (filename : string) (data : string) (perm : Z) (d : fs)
  : PathError + fs :=
  let fail e := inl {| Op := "open"; Path := filename; Err := e |} in
  match resolve d filename with
  | None => fail ENOENT
  | Some [] => fail EISDIR
  | Some k =>
      match files d !! parent k with
      | None => fail ENOENT
      | Some (File _ _) => fail ENOTDIR
      | Some (Dir pperm) =>
          match files d !! k with
          | Some (Dir _) => fail EISDIR
          | Some (File fperm _) =>
              if writable fperm
              then inr (with_files d (<[k := File fperm data]> (files d)))
              else fail EACCES
          | None =>
              if writable pperm
              then inr (with_files d (<[k := File (Z.ldiff perm (umask d)) data]> (files d)))
              else fail EACCES
          end
      end
  end.

Fixpoint is_prefix (q k : list string) : bool :=
  match q, k with
  | [], _ => true
  | a :: q', b :: k' => String.eqb a b && is_prefix q' k'
  | _ :: _, [] => false
  end.

(** Entry [j] cannot be unlinked. *)
Definition stuck (m : gmap (list string) node) (j : list string) : bool :=
  negb (parent_writable m j).

(** Entry [k] outlives a recursive removal when something at or below
    it cannot be unlinked. *)
Definition survives (m : gmap (list string) node) (k : list string) : bool :=
  existsb (λ jn, is_prefix k jn.1 && stuck m jn.1) (map_to_list m).

Definition removed (m : gmap (list string) node) (q : list string)
    (kn : list string * node) : bool :=
  is_prefix q kn.1 && negb (survives m kn.1).

(** [os.RemoveAll(path)]: removes [path] and everything below it that
    it can and reports a failure if something is left (under the path it
    was given); a path that does not exist is no error. *)
Definition RemoveAll (path : string) (d : fs) : option PathError * fs :=
  match resolve d path with
  | None => (None, d)
  | Some q =>
      match files d !! q with
      | None => (None, d)
      | Some _ =>
          let m' := filter (λ kn, removed (files d) q kn = false) (files d) in
          (if survives (files d) q
           then Some {| Op := "unlinkat"; Path := path; Err := EACCES |}
           else None,
           with_files d m')
      end
  end.

End OS.

(** ** pkg/datastore: the in-memory package model *)

Module datastore.

(** A Go result pair [(value, error)] of an accessor of the model; the
    error is carried by its message. *)
Inductive result (A : Type) :=
| Ok (a : A)
| Fail (msg : string).
Arguments Ok {A} a.
Arguments Fail {A} msg.

(** Modelled from the spec: [datastore.CRDKey], the composite key
    (group, version, kind) that identifies a resource definition. *)
Record CRDKey := { Group : string; Version : string; Kind : string }.

(** Modelled from the spec: [datastore.CustomResourceDefinition], a
    named document addressable by its key ([Key()]) and by its name
    ([GetName()]); [crdDoc] is the rest of the document. *)
Record CustomResourceDefinition := {
  crdName : string;
  crdKey : CRDKey;
  crdDoc : string
}.

(** Modelled from the spec: [datastore.ClusterServiceVersion], one
    release.  It exposes a name ([GetName()]), a version
    ([GetVersion()], which can fail) and the keys of the resource
    definitions it owns ([GetCustomResourceDefintions()], which can
    fail); [csvDoc] is the rest of the document. *)
Record ClusterServiceVersion := {
  csvName : string;
  csvVersion : result string;
  csvOwned : result (list CRDKey);
  csvDoc : string
}.

(** Modelled from the spec: [datastore.PackageManifest], the package
    descriptor with its stable package identifier. *)
Record PackageManifest := {
  pkgID : string;
  pkgDoc : string
}.

(** Modelled from the spec: [datastore.SingleOperatorManifest], one
    package with its ordered releases and its collection of resource
    definitions. *)
Record SingleOperatorManifest := {
  Package : PackageManifest;
  CustomResourceDefinitions : list CustomResourceDefinition;
  ClusterServiceVersions : list ClusterServiceVersion
}.

Definition Key (crd : CustomResourceDefinition) : CRDKey := crdKey crd.
Definition GetName (crd : CustomResourceDefinition) : string := crdName crd.
Definition GetPackageID (m : SingleOperatorManifest) : string := pkgID (Package m).

#[global] Instance CRDKey_eq_dec : EqDecision CRDKey.
Proof. solve_decision. Defined.

#[global] Instance CRDKey_countable : Countable CRDKey.
Proof.
  refine (inj_countable' (λ k, (Group k, Version k, Kind k))
            (λ t, {| Group := t.1.1; Version := t.1.2; Kind := t.2 |}) _).
  by intros [].
Defined.

End datastore.
Import datastore.

(** ** The builder's values *)

(** What [createYAML] is handed as [interface{}]. *)
Inductive object :=
| ObjPackage (p : PackageManifest)
| ObjCRD (crd : CustomResourceDefinition)
| ObjCSV (csv : ClusterServiceVersion).

(** The errors that travel through the builder: the system's, those of the
    collaborators (by message), and one constructor per [fmt.Errorf] of
    [manifest.go] holding the arguments of its format. *)
Inductive error :=
| PathErr (e : OS.PathError)
| Foreign (msg : string)
| MissingVersion
| OwnedNotFound (key : CRDKey) (csv : string)
| CreatingDir (cause : error) (dir : string)
| Marshaling (obj : object) (cause : error)
| CreatingFile (cause : error) (file : string).

(** [github.com/ghodss/yaml]: the serializer, which can refuse an object. *)
Class Yaml := Marshal : object → result string.

(** How [%s] prints a key and an object. *)
Class Fmt := {
  sprint_key : CRDKey → string;
  sprint_obj : object → string
}.

Definition Errno_string (e : OS.Errno) : string :=
  match e with
  | OS.ENOENT => "no such file or directory"
  | OS.EEXIST => "file exists"
  | OS.ENOTDIR => "not a directory"
  | OS.EISDIR => "is a directory"
  | OS.EACCES => "permission denied"
  end.

(** The [Error()] method of a path error. *)
Definition PathError_string (e : OS.PathError) : string :=
  OS.Op e +:+ " " +:+ OS.Path e +:+ ": " +:+ Errno_string (OS.Err e).

(** [err.Error()], following the format strings of [manifest.go]. *)
Fixpoint Error `{Fmt} (e : error) : string :=
  match e with
  | PathErr pe => PathError_string pe
  | Foreign msg => msg
  | MissingVersion => "Unable to create bundle dir as CSV is missing version"
  | OwnedNotFound key csv =>
      "Owned CRD " +:+ sprint_key key +:+ " for CSV " +:+ csv +:+ " not found"
  | CreatingDir cause dir =>
      "Error " +:+ Error cause +:+ " creating " +:+ dir +:+ " directory"
  | Marshaling obj cause =>
      "Error " +:+ sprint_obj obj +:+ " marshaling " +:+ Error cause +:+ " into YAML"
  | CreatingFile cause file =>
      "Error " +:+ Error cause +:+ " creating " +:+ file +:+ " file"
  end.

Record manifest := {
  singleManifest : SingleOperatorManifest;
  registryDir : string;
  manifestDir : string;
  versionDir : string
}.

(** The calls made to the leaf helpers, with what they returned. *)
Inductive event :=
| EvCreateDir (dir : string) (err : option error)
| EvCreateYAML (obj : object) (file : string) (err : option error)
| EvRemoveAll (dir : string) (err : option error).

Record state := {
  self : manifest;
  disk : OS.fs;
  history : list event
}.

Definition M (A : Type) : Type := state → A * state.

Definition ret {A} (a : A) : M A := λ s, (a, s).

Definition bind {A B} (m : M A) (k : A → M B) : M B :=
  λ s, let (a, s') := m s in k a s'.

Notation "'let*' x ':=' m 'in' k" := (bind m (λ x, k))
  (at level 10, x name, m at level 100, k at level 200, only parsing).

(** [err = m; if err != nil { return }; k]. *)
Definition or_return (m k : M (option error)) : M (option error) :=
  let* err := m in
  match err with
  | Some e => ret (Some e)
  | None => k
  end.

Infix ">>?" := or_return (at level 60, right associativity).

Definition get_self : M manifest := λ s, (self s, s).

Definition set_manifestDir (dir : string) : M unit :=
  λ s, (tt, {| self := {| singleManifest := singleManifest (self s);
                          registryDir := registryDir (self s);
                          manifestDir := dir;
                          versionDir := versionDir (self s) |};
               disk := disk s; history := history s |}).

Definition record (ev : event) (d : OS.fs) : M unit :=
  λ s, (tt, {| self := self s; disk := d; history := history s ++ [ev] |}).

Definition perm_dir : Z := 448.   (* 0700 *)
Definition perm_file : Z := 438.  (* 0666 *)

(** ** manifest.go *)

Section Manifest.
Context {Y : Yaml}.

Definition NewManifest (sm : SingleOperatorManifest) (dir : string) : manifest :=
  {| singleManifest := sm; registryDir := dir; manifestDir := EmptyString; versionDir := EmptyString |}.

Definition createDir (dir : string) : M (option error) :=
  λ s,
    match OS.Mkdir dir perm_dir (disk s) with
    | inl err =>
        let e := CreatingDir (PathErr err) dir in
        (Some e, (record (EvCreateDir dir (Some e)) (disk s) s).2)
    | inr d => (None, (record (EvCreateDir dir None) d s).2)
    end.

Definition createYAML (obj : object) (file : string) : M (option error) :=
  λ s,
    match Marshal obj with
    | Fail msg =>
        let e := Marshaling obj (Foreign msg) in
        (Some e, (record (EvCreateYAML obj file (Some e)) (disk s) s).2)
    | Ok raw =>
        match OS.WriteFile file raw perm_file (disk s) with
        | inl err =>
            let e := CreatingFile (PathErr err) file in
            (Some e, (record (EvCreateYAML obj file (Some e)) (disk s) s).2)
        | inr d => (None, (record (EvCreateYAML obj file None) d s).2)
        end
    end.

Definition createManifestDir : M (option error) :=
  let* b := get_self in
  let dir := filepath.Join (registryDir b) (GetPackageID (singleManifest b)) in
  let* _ := set_manifestDir dir in
  createDir dir.

Definition createPackageYAML : M (option error) :=
  let* b := get_self in
  createYAML (ObjPackage (Package (singleManifest b)))
    (filepath.Join (manifestDir b) (GetPackageID (singleManifest b) +:+ ".package.yaml")).

Definition createCRDYAML (crd : CustomResourceDefinition) (bundleDir : string)
  : M (option error) :=
  createYAML (ObjCRD crd) (filepath.Join bundleDir (GetName crd +:+ ".crd.yaml")).

Definition createCSVYAML (csv : ClusterServiceVersion) (bundleDir : string)
  : M (option error) :=
  createYAML (ObjCSV csv) (filepath.Join bundleDir (csvName csv +:+ ".csv.yaml")).

(** The map built at the head of [createCRDYAMLs]: a later definition
    with a key already present replaces the earlier one. *)
Definition crdMap (crds : list CustomResourceDefinition)
  : gmap CRDKey CustomResourceDefinition :=
  fold_left (λ m crd, <[Key crd := crd]> m) crds ∅.

(** The loop over the owned keys in [createCRDYAMLs]. *)
Fixpoint createOwned (m : gmap CRDKey CustomResourceDefinition) (csv : ClusterServiceVersion)
    (bundleDir : string) (ownedCRDKeys : list CRDKey) : M (option error) :=
  match ownedCRDKeys with
  | [] => ret None
  | ownedCRDKey :: rest =>
      match m !! ownedCRDKey with
      | None => ret (Some (OwnedNotFound ownedCRDKey (csvName csv)))
      | Some crd => createCRDYAML crd bundleDir >>? createOwned m csv bundleDir rest
      end
  end.

Definition createCRDYAMLs (csv : ClusterServiceVersion) (bundleDir : string)
  : M (option error) :=
  match csvOwned csv with
  | Fail msg => ret (Some (Foreign msg))
  | Ok ownedCRDKeys =>
      let* b := get_self in
      createOwned (crdMap (CustomResourceDefinitions (singleManifest b)))
        csv bundleDir ownedCRDKeys
  end.

Definition createBundleDir (csv : ClusterServiceVersion) : M (string * option error) :=
  match csvVersion csv with
  | Fail msg => ret (EmptyString, Some (Foreign msg))
  | Ok version =>
      if String.eqb version EmptyString then ret (EmptyString, Some MissingVersion)
      else
        let* b := get_self in
        let bundleDir := filepath.Join (manifestDir b) version in
        let* err := createDir bundleDir in
        ret (bundleDir, err)
  end.

Definition createBundle (csv : ClusterServiceVersion) : M (option error) :=
  let* r := createBundleDir csv in
  match r.2 with
  | Some e => ret (Some e)
  | None => createCRDYAMLs csv r.1 >>? createCSVYAML csv r.1
  end.

(** The loop of [createBundles]: what [createBundle] returns is dropped
    and the named result [err] is never assigned. *)
Fixpoint createBundles_loop (csvs : list ClusterServiceVersion) : M (option error) :=
  match csvs with
  | [] => ret None
  | csv :: rest =>
      let* _ := createBundle csv in
      createBundles_loop rest
  end.

Definition createBundles : M (option error) :=
  let* b := get_self in
  createBundles_loop (ClusterServiceVersions (singleManifest b)).

Definition Create : M (option error) :=
  createManifestDir >>? createPackageYAML >>? createBundles.

Definition Delete : M (option error) :=
  let* b := get_self in
  if String.eqb (manifestDir b) EmptyString then ret None
  else
    λ s,
      let (err, d) := OS.RemoveAll (manifestDir b) (disk s) in
      let r := option_map PathErr err in
      (r, (record (EvRemoveAll (manifestDir b) r) d s).2).

End Manifest.

(** ** Vocabulary of the statements *)

(** A path element that names one entry: not empty, not [.] or [..], and
    free of separators. *)
Fixpoint has_sep (s : string) : bool :=
  match s with
  | EmptyString => false
  | String c r => Ascii.eqb c "/" || has_sep r
  end.

Definition simple_name (c : string) : bool :=
  negb (filepath.is_dot c) && negb (filepath.is_dotdot c) && negb (has_sep c).

(** What [Clean] keeps of a path: elements that are neither empty nor [.]
    and hold no separator. *)
Definition kept (c : string) : Prop :=
  filepath.is_dot c = false ∧ has_sep c = false.

(** The disk [d'] is [d] with entries added and files rewritten: the
    working directory, the umask and every directory are as before, a file
    is still a file with its permissions, and whatever is new sits in a
    writable directory. *)
Record extends (d d' : OS.fs) : Prop := {
  ext_cwd : OS.cwd d' = OS.cwd d;
  ext_umask : OS.umask d' = OS.umask d;
  ext_dir : ∀ k perm, OS.files d !! k = Some (OS.Dir perm) →
                      OS.files d' !! k = Some (OS.Dir perm);
  ext_file : ∀ k perm data, OS.files d !! k = Some (OS.File perm data) →
                            ∃ data', OS.files d' !! k = Some (OS.File perm data');
  ext_new : ∀ k, OS.files d !! k = None → OS.files d' !! k ≠ None →
                 OS.parent_writable (OS.files d') k = true
}.


(** [path] names a regular file of [d]. *)
Definition is_file (d : OS.fs) (path : string) : Prop :=
  ∃ k perm data, OS.resolve d path = Some k ∧ OS.files d !! k = Some (OS.File perm data).

(** [path] names an entry of [d]. *)
Definition exists_at (d : OS.fs) (path : string) : Prop :=
  ∃ k n, OS.resolve d path = Some k ∧ OS.files d !! k = Some n.


(** A release without a version: the accessor fails or yields the empty
    string. *)
Definition version_missing (csv : ClusterServiceVersion) : Prop :=
  match csvVersion csv with
  | Ok version => version = EmptyString
  | Fail _ => True
  end.

(** The file names the builder derives. *)
Definition crd_file (bundleDir : string) (crd : CustomResourceDefinition) : string :=
  filepath.Join bundleDir (GetName crd +:+ ".crd.yaml").

Definition csv_file (bundleDir : string) (csv : ClusterServiceVersion) : string :=
  filepath.Join bundleDir (csvName csv +:+ ".csv.yaml").

(** The package directory of a builder, [<registryDir>/<packageID>]. *)
Definition root_dir (b : manifest) : string :=
  filepath.Join (registryDir b) (GetPackageID (singleManifest b)).

(** The state in which [createManifestDir] calls [createDir]. *)
Definition rooted_state (s : state) : state :=
  (set_manifestDir (root_dir (self s)) s).2.

(** No event of [h] hands a release descriptor to [createYAML]. *)
Definition no_csv_event (h : list event) : Prop :=
  ∀ csv file err, EvCreateYAML (ObjCSV csv) file err ∉ h.

(** The events added to the history between [s] and [s']. *)
Definition since (s s' : state) : list event :=
  drop (length (history s)) (history s').

(** From [s] to [s'] the receiver is untouched, the disk is extended and
    the history continued. *)
Record grows (s s' : state) : Prop := {
  grows_self : self s' = self s;
  grows_disk : extends (disk s) (disk s');
  grows_history : history s' = (history s ++ since s s')%list
}.

(** The event hands a resource definition to [createYAML]. *)
Definition crd_event (ev : event) : Prop :=
  ∃ crd file err, ev = EvCreateYAML (ObjCRD crd) file err.

(** The event is a call of [createDir]. *)
Definition dir_event (ev : event) : Prop :=
  ∃ dir err, ev = EvCreateDir dir err.

(** ** Vocabulary of the further properties *)

(** At every name that is neither [q] nor below it the disks agree. *)
Definition same_outside (q : list string) (d d' : OS.fs) : Prop :=
  ∀ j, OS.is_prefix q j = false → OS.files d' !! j = OS.files d !! j.

(** The error an event carries. *)
Definition event_err (ev : event) : option error :=
  match ev with
  | EvCreateDir _ err => err
  | EvCreateYAML _ _ err => err
  | EvRemoveAll _ err => err
  end.

(** Every call of [h] succeeded. *)
Definition all_ok (h : list event) : Prop :=
  Forall (λ ev, event_err ev = None) h.

(** The version of a release, empty when the accessor fails. *)
Definition version_of (csv : ClusterServiceVersion) : string :=
  match csvVersion csv with
  | Ok version => version
  | Fail _ => EmptyString
  end.

(** A release whose name holds no separator and whose version, if it has
    one, is a plain name. *)
Definition plain_release (csv : ClusterServiceVersion) : Prop :=
  has_sep (csvName csv) = false ∧
  (String.eqb (version_of csv) EmptyString || simple_name (version_of csv)) = true.

(** A package of which no name leaves its directory: the identifier and
    the names of the releases and definitions hold no separator, the
    versions are plain names. *)
Definition plain_package (sm : SingleOperatorManifest) : Prop :=
  has_sep (GetPackageID sm) = false ∧
  Forall plain_release (ClusterServiceVersions sm) ∧
  Forall (λ crd, has_sep (crdName crd) = false) (CustomResourceDefinitions sm).


(** [path] names a directory of [d]. *)
Definition is_dir (d : OS.fs) (path : string) : Prop :=
  ∃ k perm, OS.resolve d path = Some k ∧ OS.files d !! k = Some (OS.Dir perm).




(** [path] names a file of [d] that holds [data]. *)
Definition holds (d : OS.fs) (path : string) (data : string) : Prop :=
  ∃ k perm, OS.resolve d path = Some k ∧ OS.files d !! k = Some (OS.File perm data).

(** What one release leaves on the disk when its bundle is complete: the
    bundle directory, the descriptor holding the serialized release, and
    the definition of every owned key. *)
Definition bundle_on_disk {Y : Yaml} (b : manifest) (csv : ClusterServiceVersion)
    (d : OS.fs) : Prop :=
  let dir := filepath.Join (manifestDir b) (version_of csv) in
  is_dir d dir ∧
  (∃ raw, Marshal (ObjCSV csv) = Ok raw ∧ holds d (csv_file dir csv) raw) ∧
  ∃ keys, csvOwned csv = Ok keys ∧
    Forall (λ k, ∃ crd,
              crdMap (CustomResourceDefinitions (singleManifest b)) !! k = Some crd ∧
              is_file d (crd_file dir crd)) keys.



(** What is new in [d'] has the modes of the builder: 0700 for a
    directory and 0666 for a file, less the umask. *)
Definition adds_with_modes (d d' : OS.fs) : Prop :=
  ∀ k, OS.files d !! k = None →
       match OS.files d' !! k with
       | None => True
       | Some (OS.Dir perm) => perm = Z.ldiff 448 (OS.umask d)
       | Some (OS.File perm _) => perm = Z.ldiff 438 (OS.umask d)
       end.

(** From [s] to [s'] the state grows and what is added has the modes of
    the builder. *)
Definition tidy (s s' : state) : Prop :=
  grows s s' ∧ adds_with_modes (disk s) (disk s').

(** ** Concrete packages and disks *)

Module Fixtures.

(** A serializer that accepts every object and emits its document. *)
Definition yaml_plain : Yaml :=
  λ obj,
    match obj with
    | ObjPackage p => Ok (pkgDoc p)
    | ObjCRD crd => Ok (crdDoc crd)
    | ObjCSV csv => Ok (csvDoc csv)
    end.

Definition fmt_plain : Fmt :=
  {| sprint_key := λ k, Group k +:+ "/" +:+ Version k +:+ "/" +:+ Kind k;
     sprint_obj := λ obj,
       match obj with
       | ObjPackage p => pkgID p
       | ObjCRD crd => crdName crd
       | ObjCSV csv => csvName csv
       end |}.

(** [/] and [/reg], both 0755; umask 022. *)
Definition disk_reg : OS.fs :=
  {| OS.files := {[ [] := OS.Dir 493; ["reg"] := OS.Dir 493 ]};
     OS.cwd := [];
     OS.umask := 18 |}.

(** The same with umask 0. *)
Definition disk_open : OS.fs :=
  {| OS.files := OS.files disk_reg; OS.cwd := []; OS.umask := 0 |}.


Definition key_clusters : CRDKey :=
  {| Group := "etcd.database.coreos.com"; Version := "v1beta2"; Kind := "EtcdCluster" |}.

Definition key_backups : CRDKey :=
  {| Group := "etcd.database.coreos.com"; Version := "v1beta2"; Kind := "EtcdBackup" |}.

Definition crd_clusters : CustomResourceDefinition :=
  {| crdName := "etcdclusters.etcd.database.coreos.com";
     crdKey := key_clusters; crdDoc := "kind: CustomResourceDefinition" |}.

(** A second definition under the key of [crd_clusters]. *)
Definition crd_clusters' : CustomResourceDefinition :=
  {| crdName := "etcdclusters.etcd.database.coreos.com";
     crdKey := key_clusters; crdDoc := "kind: CustomResourceDefinition # later" |}.

Definition csv_061 : ClusterServiceVersion :=
  {| csvName := "etcdoperator.v0.6.1"; csvVersion := Ok "0.6.1";
     csvOwned := Ok [key_clusters]; csvDoc := "kind: ClusterServiceVersion" |}.

(** A second release with the version of [csv_061]. *)
Definition csv_061' : ClusterServiceVersion :=
  {| csvName := "etcdoperator.v0.6.1-b"; csvVersion := Ok "0.6.1";
     csvOwned := Ok [key_clusters]; csvDoc := "kind: ClusterServiceVersion" |}.

Definition csv_090 : ClusterServiceVersion :=
  {| csvName := "etcdoperator.v0.9.0"; csvVersion := Ok "0.9.0";
     csvOwned := Ok [key_clusters]; csvDoc := "kind: ClusterServiceVersion" |}.

(** A release with an empty version. *)
Definition csv_unversioned : ClusterServiceVersion :=
  {| csvName := "etcdoperator.v0.0.0"; csvVersion := Ok EmptyString;
     csvOwned := Ok [key_clusters]; csvDoc := "kind: ClusterServiceVersion" |}.

(** A release that owns a definition the package does not hold. *)
Definition csv_dangling : ClusterServiceVersion :=
  {| csvName := "etcdoperator.v0.9.2"; csvVersion := Ok "0.9.2";
     csvOwned := Ok [key_clusters; key_backups]; csvDoc := "kind: ClusterServiceVersion" |}.

(** No version and a dangling reference. *)
Definition csv_unversioned_dangling : ClusterServiceVersion :=
  {| csvName := "etcdoperator.v0.0.0"; csvVersion := Ok EmptyString;
     csvOwned := Ok [key_backups]; csvDoc := "kind: ClusterServiceVersion" |}.

(** A serializer that refuses an object without a document. *)
Definition yaml_strict : Yaml :=
  λ obj,
    let doc := match obj with
               | ObjPackage p => pkgDoc p
               | ObjCRD crd => crdDoc crd
               | ObjCSV csv => csvDoc csv
               end in
    if String.eqb doc EmptyString then Fail "json: unexpected end of JSON input"
    else Ok doc.

(** A definition without a document. *)
Definition crd_blank : CustomResourceDefinition :=
  {| crdName := "etcdclusters.etcd.database.coreos.com";
     crdKey := key_clusters; crdDoc := EmptyString |}.

Definition package (id : string) (crds : list CustomResourceDefinition)
    (csvs : list ClusterServiceVersion) : SingleOperatorManifest :=
  {| Package := {| pkgID := id; pkgDoc := "packageName: " +:+ id |};
     CustomResourceDefinitions := crds;
     ClusterServiceVersions := csvs |}.

Definition etcd : SingleOperatorManifest := package "etcd" [crd_clusters] [csv_061].

(** A builder that has not run yet, on disk [d]. *)
Definition fresh (sm : SingleOperatorManifest) (dir : string) (d : OS.fs) : state :=
  {| self := NewManifest sm dir; disk := d; history := [] |}.

(** A builder whose package directory [/reg/etcd] is in place. *)
Definition rooted (sm : SingleOperatorManifest) (d : OS.fs) : state :=
  {| self := {| singleManifest := sm; registryDir := "/reg";
                manifestDir := "/reg/etcd"; versionDir := EmptyString |};
     disk := {| OS.files := <[ ["reg"; "etcd"] := OS.Dir 448 ]> (OS.files d);
                OS.cwd := OS.cwd d; OS.umask := OS.umask d |};
     history := [] |}.

(** [/reg/etcd] is there already and holds a file. *)
Definition disk_taken : OS.fs :=
  {| OS.files := {[ [] := OS.Dir 493; ["reg"] := OS.Dir 493;
                    ["reg"; "etcd"] := OS.Dir 493;
                    ["reg"; "etcd"; "notes"] := OS.File 420 "keep" ]};
     OS.cwd := [];
     OS.umask := 18 |}.

(** The package [etcd] with a descriptor that has no document. *)
Definition etcd_blank : SingleOperatorManifest :=
  {| Package := {| pkgID := "etcd"; pkgDoc := EmptyString |};
     CustomResourceDefinitions := [crd_clusters];
     ClusterServiceVersions := [csv_061] |}.

End Fixtures.

(** ** Paths *)

Local Open Scope list_scope.

Section PathFacts.
Import filepath.

Lemma split_nonempty s : split s ≠ [].
Proof.
  induction s as [|c r IH]; simpl; [done|].
  destruct (Ascii.eqb c "/"); [done|]. by destruct (split r).
Qed.

Lemma split_app_sep a b : split (a +:+ String "/" b) = split a ++ split b.
Proof.
  induction a as [|c r IH]; simpl; [done|].
  destruct (Ascii.eqb c "/"); [by rewrite IH|].
  rewrite IH. destruct (split r) eqn:E; [by apply split_nonempty in E|done].
Qed.

Lemma split_no_sep c : has_sep c = false → split c = [c].
Proof.
  induction c as [|a r IH]; simpl; [done|].
  destruct (Ascii.eqb a "/"); simpl; [done|]. intros E. by rewrite IH.
Qed.

Lemma split_no_seps s : Forall (λ c, has_sep c = false) (split s).
Proof.
  induction s as [|a r IH]; simpl; [repeat constructor; done|].
  destruct (Ascii.eqb a "/") eqn:E; [by constructor|].
  destruct (split r) as [|h t]; [repeat constructor; simpl; by rewrite E|].
  inversion IH; subst. constructor; [simpl; by rewrite E|done].
Qed.

Lemma clean_step_kept r out c :
  has_sep c = false → Forall kept out → Forall kept (clean_step r out c).
Proof.
  intros Hc Hout. unfold clean_step.
  destruct (is_dot c) eqn:Ed; [done|].
  assert (Hk : kept c) by done.
  destruct (is_dotdot c) eqn:Edd; [|by constructor].
  destruct out as [|top rest].
  - destruct r; [done|]. by constructor.
  - destruct (is_dotdot top); [by constructor|]. by inversion Hout.
Qed.

Lemma clean_fold_kept r comps out :
  Forall (λ c, has_sep c = false) comps → Forall kept out →
  Forall kept (fold_left (clean_step r) comps out).
Proof.
  revert out. induction comps as [|c comps IH]; intros out Hc Hout; simpl; [done|].
  inversion Hc; subst. apply IH; [done|]. by apply clean_step_kept.
Qed.

Lemma split_join elems :
  elems ≠ [] → Forall (λ c, has_sep c = false) elems → split (join elems) = elems.
Proof.
  induction elems as [|c r IH]; [done|]. intros _ Hs. inversion Hs; subst.
  destruct r as [|c' r'].
  - simpl. by apply split_no_sep.
  - change (join (c :: c' :: r')) with (c +:+ String "/" (join (c' :: r'))).
    rewrite split_app_sep, IH, split_no_sep; done.
Qed.

Lemma walk_skip_empty elems base :
  fold_left OS.walk_step (EmptyString :: elems) base = fold_left OS.walk_step elems base.
Proof. done. Qed.

Lemma walk_render r elems base :
  Forall kept elems →
  fold_left OS.walk_step (split (render r elems)) base = fold_left OS.walk_step elems base.
Proof.
  intros Hk.
  assert (Hs : Forall (λ c, has_sep c = false) elems).
  { eapply Forall_impl; [exact Hk|]. by intros ? []. }
  unfold render. destruct r.
  - change ("/" +:+ join elems) with (EmptyString +:+ String "/" (join elems)).
    rewrite split_app_sep. simpl split at 1. simpl app.
    rewrite walk_skip_empty.
    destruct elems as [|c t]; [done|]. by rewrite split_join.
  - destruct elems as [|c t]; [done|]. by rewrite split_join.
Qed.

Lemma rooted_render r elems : Forall kept elems → rooted (render r elems) = r.
Proof.
  intros Hk. unfold render. destruct r; [done|].
  destruct elems as [|c t]; [done|].
  inversion Hk as [|? ? [Hd Hsep] _]; subst.
  destruct c as [|a c']; [done|].
  simpl in Hsep. apply orb_false_iff in Hsep as [Ha _].
  destruct t; simpl; done.
Qed.

Lemma render_not_empty r elems :
  Forall kept elems → String.eqb (render r elems) EmptyString = false.
Proof.
  intros Hk. unfold render. destruct r; [done|].
  destruct elems as [|c t]; [done|].
  inversion Hk as [|? ? [Hd _] _]; subst.
  destruct c as [|a c']; [done|]. by destruct t.
Qed.

Lemma walk_step_dot at_ c : is_dot c = true → OS.walk_step at_ c = at_.
Proof. intros E. unfold OS.walk_step. by rewrite E. Qed.

Lemma walk_step_dotdot at_ c :
  is_dot c = false → is_dotdot c = true → OS.walk_step at_ c = tail at_.
Proof. intros E1 E2. unfold OS.walk_step. by rewrite E1, E2. Qed.

Lemma walk_step_name at_ c :
  is_dot c = false → is_dotdot c = false → OS.walk_step at_ c = c :: at_.
Proof. intros E1 E2. unfold OS.walk_step. by rewrite E1, E2. Qed.

Lemma walk_snoc out c base :
  fold_left OS.walk_step (rev (c :: out)) base
  = OS.walk_step (fold_left OS.walk_step (rev out) base) c.
Proof. simpl. by rewrite fold_left_app. Qed.

(** One element is read the same way by [Clean] and by the walk. *)
Lemma walk_clean_step r out c base :
  Forall kept out → (r = true → base = []) →
  fold_left OS.walk_step (rev (clean_step r out c)) base
  = OS.walk_step (fold_left OS.walk_step (rev out) base) c.
Proof.
  intros Hout Hr. unfold clean_step.
  destruct (is_dot c) eqn:Ed; [by rewrite walk_step_dot|].
  destruct (is_dotdot c) eqn:Edd; [|apply walk_snoc].
  destruct out as [|top rest].
  - destruct r; [|apply walk_snoc].
    simpl. rewrite Hr by done. by rewrite walk_step_dotdot.
  - destruct (is_dotdot top) eqn:Et; [apply walk_snoc|].
    inversion Hout as [|? ? [Hd _] _]; subst.
    rewrite (walk_snoc rest top), (walk_step_name _ top) by done.
    by rewrite walk_step_dotdot.
Qed.

Lemma walk_clean r comps : ∀ out base,
  Forall (λ c, has_sep c = false) comps → Forall kept out → (r = true → base = []) →
  fold_left OS.walk_step (rev (fold_left (clean_step r) comps out)) base
  = fold_left OS.walk_step comps (fold_left OS.walk_step (rev out) base).
Proof.
  induction comps as [|c comps IH]; intros out base Hc Hout Hr; simpl; [done|].
  inversion Hc; subst.
  rewrite IH; [|done|by apply clean_step_kept|done].
  by rewrite walk_clean_step.
Qed.

(** Cleaning a path does not change what it names. *)
Lemma resolve_Clean d p :
  String.eqb p EmptyString = false → OS.resolve d (Clean p) = OS.resolve d p.
Proof.
  intros Hp. unfold OS.resolve, Clean. rewrite Hp.
  pose proof (clean_fold_kept (rooted p) (split p) [] (split_no_seps p) (Forall_nil_2 _)) as Hk.
  apply Forall_rev in Hk.
  rewrite render_not_empty, rooted_render, walk_render by done.
  f_equal. f_equal.
  rewrite walk_clean; [done|apply split_no_seps|done|].
  intros ->. done.
Qed.

(** Joining a plain name to a path names the entry of that name in the
    directory the path names. *)
Lemma resolve_Join d dir c :
  String.eqb dir EmptyString = false → simple_name c = true →
  OS.resolve d (Join dir c) = (λ k, k ++ [c]) <$> OS.resolve d dir.
Proof.
  intros Hdir Hc. unfold Join. rewrite Hdir.
  unfold simple_name in Hc.
  apply andb_true_iff in Hc as [Hc Hsep]. apply andb_true_iff in Hc as [Hd Hdd].
  apply negb_true_iff in Hd, Hdd, Hsep.
  change (negb false) with true. cbv iota.
  change (dir +:+ "/" +:+ c) with (dir +:+ String "/" c).
  assert (Hne : String.eqb (dir +:+ String "/" c) EmptyString = false)
    by (by destruct dir).
  assert (Hr : rooted (dir +:+ String "/" c) = rooted dir) by (by destruct dir).
  rewrite resolve_Clean by done.
  unfold OS.resolve. rewrite Hne, Hdir, Hr.
  rewrite split_app_sep, fold_left_app, (split_no_sep c) by done.
  cbn [fold_left]. rewrite walk_step_name by done.
  done.
Qed.

End PathFacts.

(** ** The disk *)

Section DiskFacts.
Import OS.

Lemma Mkdir_inr name perm d d' :
  Mkdir name perm d = inr d' →
  ∃ k pperm, resolve d name = Some k ∧ k ≠ [] ∧
    files d !! parent k = Some (Dir pperm) ∧ writable pperm = true ∧
    files d !! k = None ∧
    d' = with_files d (<[k := Dir (Z.ldiff perm (umask d))]> (files d)).
Proof.
  unfold Mkdir. destruct (resolve d name) as [k|]; [|done].
  destruct k as [|c k]; [done|].
  destruct (files d !! parent (c :: k)) as [[pperm|]|] eqn:Ep; [|done..].
  destruct (files d !! (c :: k)) eqn:Ek; [done|].
  destruct (writable pperm) eqn:Ew; [|done].
  intros [= <-]. by exists (c :: k), pperm.
Qed.

Lemma Mkdir_inl_path name perm d pe :
  Mkdir name perm d = inl pe → Op pe = "mkdir" ∧ Path pe = name.
Proof.
  unfold Mkdir. intros E.
  repeat match type of E with
         | match ?x with _ => _ end = _ => destruct x
         | (if ?x then _ else _) = _ => destruct x
         end; by inversion E.
Qed.

(** A name that is taken cannot be made a directory. *)
Lemma Mkdir_taken name perm d k :
  resolve d name = Some k → files d !! k ≠ None → ∃ pe, Mkdir name perm d = inl pe.
Proof.
  intros Hr Hk. unfold Mkdir. rewrite Hr.
  destruct k as [|c k]; [by eexists|].
  destruct (files d !! parent (c :: k)) as [[pperm|]|]; [|by eexists..].
  destruct (files d !! (c :: k)); [by eexists|done].
Qed.


Lemma WriteFile_inr filename data perm d d' :
  WriteFile filename data perm d = inr d' →
  ∃ k, resolve d filename = Some k ∧ k ≠ [] ∧
    ((files d !! k = None ∧ parent_writable (files d) k = true ∧
      d' = with_files d (<[k := File (Z.ldiff perm (umask d)) data]> (files d)))
     ∨ (∃ fperm old, files d !! k = Some (File fperm old) ∧
        d' = with_files d (<[k := File fperm data]> (files d)))).
Proof.
  unfold WriteFile. destruct (resolve d filename) as [k|]; [|done].
  destruct k as [|c k]; [done|].
  destruct (files d !! parent (c :: k)) as [[pperm|]|] eqn:Ep; [|done..].
  destruct (files d !! (c :: k)) as [[?|fperm old]|] eqn:Ek; [done|..].
  - destruct (writable fperm); [|done]. intros [= <-].
    exists (c :: k). split_and!; [done..|]. right. by exists fperm, old.
  - destruct (writable pperm) eqn:Ew; [|done]. intros [= <-].
    exists (c :: k). split_and!; [done..|]. left. split_and!; [done| |done].
    unfold parent_writable. by rewrite Ep.
Qed.

Lemma extends_refl d : extends d d.
Proof.
  split; [done..| |done]. intros k perm data ?. by exists data.
Qed.

Lemma extends_trans d1 d2 d3 : extends d1 d2 → extends d2 d3 → extends d1 d3.
Proof.
  intros [C1 U1 D1 F1 N1] [C2 U2 D2 F2 N2]. split.
  - congruence.
  - congruence.
  - eauto.
  - intros k perm data Hk. destruct (F1 _ _ _ Hk) as [data' Hk']. eauto.
  - intros k Hk Hk3.
    destruct (files d2 !! k) eqn:E2.
    + assert (Hw : parent_writable (files d2) k = true) by (apply N1; [done|by rewrite E2]).
      unfold parent_writable in *. destruct k; [done|].
      destruct (files d2 !! parent (s :: k)) as [[pperm|]|] eqn:Ep; [|done..].
      by rewrite (D2 _ _ Ep).
    + by apply N2.
Qed.

Lemma parent_writable_parent m k :
  parent_writable m k = true → ∃ perm, m !! parent k = Some (Dir perm) ∧ k ≠ [].
Proof.
  unfold parent_writable. destruct k; [done|].
  destruct (m !! parent (s :: k)) as [[perm|]|]; [|done..]. by exists perm.
Qed.

Lemma extends_create d k n :
  files d !! k = None → parent_writable (files d) k = true →
  extends d (with_files d (<[k := n]> (files d))).
Proof.
  intros Hk Hw. split; simpl; [done..| | |].
  - intros k' perm Hk'. rewrite lookup_insert_ne; [done|congruence].
  - intros k' perm data Hk'. exists data. rewrite lookup_insert_ne; [done|congruence].
  - intros k' Hk' Hn. destruct (decide (k = k')) as [<-|Hne].
    + destruct (parent_writable_parent _ _ Hw) as (perm & Hp & _).
      unfold parent_writable in *. destruct k; [done|].
      rewrite lookup_insert_ne; [done|]. intros Heq. rewrite <- Heq in Hp. congruence.
    + rewrite lookup_insert_ne in Hn; done.
Qed.

Lemma extends_rewrite d k fperm old data :
  files d !! k = Some (File fperm old) →
  extends d (with_files d (<[k := File fperm data]> (files d))).
Proof.
  intros Hk. split; simpl; [done..| | |].
  - intros k' perm Hk'. rewrite lookup_insert_ne; [done|congruence].
  - intros k' perm data' Hk'. destruct (decide (k = k')) as [<-|Hne].
    + exists data. rewrite lookup_insert_eq. congruence.
    + exists data'. by rewrite lookup_insert_ne.
  - intros k' Hk' Hn. destruct (decide (k = k')) as [<-|Hne]; [congruence|].
    rewrite lookup_insert_ne in Hn; done.
Qed.

Lemma Mkdir_extends name perm d d' : Mkdir name perm d = inr d' → extends d d'.
Proof.
  intros E. apply Mkdir_inr in E as (k & pperm & Hr & Hk & Hp & Hw & Hn & ->).
  apply extends_create; [done|].
  unfold parent_writable. destruct k; [done|]. by rewrite Hp.
Qed.

Lemma WriteFile_extends filename data perm d d' :
  WriteFile filename data perm d = inr d' → extends d d'.
Proof.
  intros E. apply WriteFile_inr in E as (k & Hr & Hk & [(Hn & Hw & ->)|(fperm & old & Hf & ->)]).
  - by apply extends_create.
  - by eapply extends_rewrite.
Qed.

(** What a path names depends on the working directory alone. *)
Lemma resolve_extends d d' p : extends d d' → resolve d' p = resolve d p.
Proof. intros [C _ _ _ _]. unfold resolve. by rewrite C. Qed.

Lemma is_file_extends d d' p : extends d d' → is_file d p → is_file d' p.
Proof.
  intros E (k & perm & data & Hr & Hk).
  destruct (ext_file _ _ E _ _ _ Hk) as [data' Hk'].
  exists k, perm, data'. by rewrite (resolve_extends _ _ _ E).
Qed.

Lemma exists_at_extends d d' p : extends d d' → exists_at d p → exists_at d' p.
Proof.
  intros E (k & n & Hr & Hk). rewrite <- (resolve_extends _ _ p E) in Hr.
  destruct n as [perm|perm data].
  - exists k, (Dir perm). split; [done|]. by apply (ext_dir _ _ E).
  - destruct (ext_file _ _ E _ _ _ Hk) as [data' Hk']. by exists k, (File perm data').
Qed.

End DiskFacts.

(** ** The helpers of the builder *)

Section BuilderFacts.
Context {Y : Yaml}.

Lemma since_app s s' h : history s' = history s ++ h → since s s' = h.
Proof. intros E. unfold since. by rewrite E, drop_app_length. Qed.

Lemma since_refl s : since s s = [].
Proof. apply since_app. by rewrite app_nil_r. Qed.

Lemma grows_refl s : grows s s.
Proof. split; [done|apply extends_refl|]. by rewrite since_refl, app_nil_r. Qed.

Lemma grows_intro s s' h :
  self s' = self s → extends (disk s) (disk s') → history s' = history s ++ h →
  grows s s'.
Proof. intros ? ? E. split; [done..|]. by rewrite (since_app _ _ _ E). Qed.

Lemma since_trans s1 s2 s3 :
  grows s1 s2 → grows s2 s3 → since s1 s3 = since s1 s2 ++ since s2 s3.
Proof.
  intros [_ _ H1] [_ _ H2]. apply since_app. by rewrite app_assoc, <- H1.
Qed.

Lemma grows_trans s1 s2 s3 : grows s1 s2 → grows s2 s3 → grows s1 s3.
Proof.
  intros G1 G2. pose proof (since_trans _ _ _ G1 G2) as E.
  destruct G1 as [S1 D1 H1], G2 as [S2 D2 H2]. split.
  - congruence.
  - by eapply extends_trans.
  - by rewrite E, app_assoc, <- H1.
Qed.

Lemma or_return_run (m k : M (option error)) s :
  (m >>? k) s = match (m s).1 with
                | Some e => (Some e, (m s).2)
                | None => k (m s).2
                end.
Proof. unfold or_return, bind, ret. by destruct (m s) as [[e|] s']. Qed.

(** *** [createDir] *)

Lemma createDir_run dir s :
  let r := (createDir dir s).1 in
  let s' := (createDir dir s).2 in
  self s' = self s ∧ history s' = history s ++ [EvCreateDir dir r] ∧
  match r with
  | None => OS.Mkdir dir perm_dir (disk s) = inr (disk s')
  | Some e => disk s' = disk s ∧
              ∃ pe, OS.Mkdir dir perm_dir (disk s) = inl pe ∧
                    e = CreatingDir (PathErr pe) dir
  end.
Proof.
  unfold createDir. destruct (OS.Mkdir dir perm_dir (disk s)) as [pe|d]; simpl.
  - split_and!; [done..|]. by exists pe.
  - done.
Qed.

Lemma createDir_grows dir s : grows s (createDir dir s).2.
Proof.
  destruct (createDir_run dir s) as (Hs & Hh & Hr).
  eapply grows_intro; [done| |done].
  destruct (createDir dir s).1.
  - destruct Hr as [-> _]. apply extends_refl.
  - by eapply Mkdir_extends.
Qed.

Lemma createDir_since dir s :
  since s (createDir dir s).2 = [EvCreateDir dir (createDir dir s).1].
Proof. apply since_app. by destruct (createDir_run dir s) as (_ & ? & _). Qed.

(** *** [createYAML] *)

Lemma createYAML_run obj file s :
  let r := (createYAML obj file s).1 in
  let s' := (createYAML obj file s).2 in
  self s' = self s ∧ history s' = history s ++ [EvCreateYAML obj file r] ∧
  match r with
  | None => ∃ raw, Marshal obj = Ok raw ∧
                   OS.WriteFile file raw perm_file (disk s) = inr (disk s')
  | Some e => disk s' = disk s
  end.
Proof.
  unfold createYAML. destruct (Marshal obj) as [raw|msg]; simpl; [|done].
  destruct (OS.WriteFile file raw perm_file (disk s)) as [pe|d] eqn:Ew; simpl; [done|].
  split_and!; [done..|]. by exists raw.
Qed.

Lemma createYAML_grows obj file s : grows s (createYAML obj file s).2.
Proof.
  destruct (createYAML_run obj file s) as (Hs & Hh & Hr).
  eapply grows_intro; [done| |done].
  destruct (createYAML obj file s).1.
  - rewrite Hr. apply extends_refl.
  - destruct Hr as (raw & _ & Hw). by eapply WriteFile_extends.
Qed.

Lemma createYAML_since obj file s :
  since s (createYAML obj file s).2 = [EvCreateYAML obj file (createYAML obj file s).1].
Proof. apply since_app. by destruct (createYAML_run obj file s) as (_ & ? & _). Qed.

(** A write that succeeds leaves a file under the name. *)
Lemma createYAML_is_file obj file s :
  (createYAML obj file s).1 = None → is_file (disk (createYAML obj file s).2) file.
Proof.
  intros E. destruct (createYAML_run obj file s) as (_ & _ & Hr).
  rewrite E in Hr. destruct Hr as (raw & _ & Hw).
  pose proof (WriteFile_extends _ _ _ _ _ Hw) as Hext.
  apply WriteFile_inr in Hw as (k & Hr & Hk & [(Hn & Hpw & Hd)|(fperm & old & Hf & Hd)]).
  - exists k, (Z.ldiff perm_file (OS.umask (disk s))), raw.
    rewrite (resolve_extends _ _ _ Hext), Hd. split; [done|]. apply lookup_insert_eq.
  - exists k, fperm, raw.
    rewrite (resolve_extends _ _ _ Hext), Hd. split; [done|]. apply lookup_insert_eq.
Qed.

(** *** The loop over the owned keys *)

Lemma createOwned_cons m csv dir k keys s :
  createOwned m csv dir (k :: keys) s =
  match m !! k with
  | None => (Some (OwnedNotFound k (csvName csv)), s)
  | Some crd =>
      match (createYAML (ObjCRD crd) (crd_file dir crd) s).1 with
      | Some e => (Some e, (createYAML (ObjCRD crd) (crd_file dir crd) s).2)
      | None => createOwned m csv dir keys (createYAML (ObjCRD crd) (crd_file dir crd) s).2
      end
  end.
Proof. simpl. destruct (m !! k); [|done]. apply or_return_run. Qed.

Lemma createOwned_grows m csv dir keys : ∀ s, grows s (createOwned m csv dir keys s).2.
Proof.
  induction keys as [|k keys IH]; intros s; [apply grows_refl|].
  rewrite createOwned_cons. destruct (m !! k) as [crd|]; [|apply grows_refl].
  pose proof (createYAML_grows (ObjCRD crd) (crd_file dir crd) s) as G.
  destruct (createYAML (ObjCRD crd) (crd_file dir crd) s).1; [done|].
  eapply grows_trans; [exact G|apply IH].
Qed.

Lemma createOwned_events m csv dir keys : ∀ s,
  Forall crd_event (since s (createOwned m csv dir keys s).2).
Proof.
  induction keys as [|k keys IH]; intros s; [by rewrite since_refl|].
  rewrite createOwned_cons. destruct (m !! k) as [crd|]; [|by rewrite since_refl].
  pose proof (createYAML_grows (ObjCRD crd) (crd_file dir crd) s) as G.
  pose proof (createYAML_since (ObjCRD crd) (crd_file dir crd) s) as E.
  assert (Hev : Forall crd_event (since s (createYAML (ObjCRD crd) (crd_file dir crd) s).2)).
  { rewrite E. constructor; [|done]. by eexists _, _, _. }
  destruct (createYAML (ObjCRD crd) (crd_file dir crd) s).1; [done|].
  rewrite (since_trans _ _ _ G (createOwned_grows _ _ _ _ _)).
  apply Forall_app. split; [done|apply IH].
Qed.

(** When the loop succeeds every owned key was resolved and its
    definition written, and the file is on the disk at the end. *)
Lemma createOwned_ok m csv dir keys : ∀ s,
  (createOwned m csv dir keys s).1 = None →
  Forall (λ k, ∃ crd, m !! k = Some crd ∧
                EvCreateYAML (ObjCRD crd) (crd_file dir crd) None
                  ∈ since s (createOwned m csv dir keys s).2 ∧
                is_file (disk (createOwned m csv dir keys s).2) (crd_file dir crd))
         keys.
Proof.
  induction keys as [|k keys IH]; intros s; [done|].
  rewrite createOwned_cons. destruct (m !! k) as [crd|] eqn:Ek; [|done].
  pose proof (createYAML_grows (ObjCRD crd) (crd_file dir crd) s) as G.
  pose proof (createYAML_since (ObjCRD crd) (crd_file dir crd) s) as E.
  pose proof (createYAML_is_file (ObjCRD crd) (crd_file dir crd) s) as F.
  destruct (createYAML (ObjCRD crd) (crd_file dir crd) s).1 eqn:E1; [done|]. intros E2.
  set (s1 := (createYAML (ObjCRD crd) (crd_file dir crd) s).2) in *.
  pose proof (createOwned_grows m csv dir keys s1) as G2.
  rewrite (since_trans _ _ _ G G2). constructor.
  - exists crd. split_and!; [done| |].
    + rewrite E. set_solver.
    + eapply is_file_extends; [apply G2|]. by apply F.
  - eapply Forall_impl; [apply (IH s1 E2)|].
    intros k' (crd' & ? & ? & ?). exists crd'. split_and!; [done| |done]. set_solver.
Qed.

(** A key the package does not hold makes the loop fail. *)
Lemma createOwned_unresolved m csv dir keys k : ∀ s,
  k ∈ keys → m !! k = None → is_Some (createOwned m csv dir keys s).1.
Proof.
  induction keys as [|k' keys IH]; intros s Hin Hk; [by apply elem_of_nil in Hin|].
  rewrite createOwned_cons. destruct (m !! k') as [crd|] eqn:Ek'; [|by eexists].
  destruct (createYAML (ObjCRD crd) (crd_file dir crd) s).1; [by eexists|].
  apply IH; [|done]. apply elem_of_cons in Hin as [->|]; [congruence|done].
Qed.

(** It fails at the first such key, with the error that names it, if
    what comes before was written. *)
Lemma createOwned_first_unresolved m csv dir pre k post : ∀ s s',
  m !! k = None → createOwned m csv dir pre s = (None, s') →
  createOwned m csv dir (pre ++ k :: post) s
  = (Some (OwnedNotFound k (csvName csv)), s').
Proof.
  induction pre as [|k' pre IH]; intros s s' Hk Hpre.
  - simpl in *. rewrite Hk. by inversion Hpre.
  - rewrite <- app_comm_cons, createOwned_cons. rewrite createOwned_cons in Hpre.
    destruct (m !! k') as [crd|]; [|done].
    destruct (createYAML (ObjCRD crd) (crd_file dir crd) s).1; [done|]. by apply IH.
Qed.

End BuilderFacts.

(** ** One bundle *)

Section BundleFacts.
Context {Y : Yaml}.

Lemma createCRDYAMLs_run csv dir s :
  createCRDYAMLs csv dir s =
  match csvOwned csv with
  | Fail msg => (Some (Foreign msg), s)
  | Ok keys =>
      createOwned (crdMap (CustomResourceDefinitions (singleManifest (self s))))
        csv dir keys s
  end.
Proof. unfold createCRDYAMLs. by destruct (csvOwned csv). Qed.

Lemma createBundleDir_run csv s :
  createBundleDir csv s =
  match csvVersion csv with
  | Fail msg => ((EmptyString, Some (Foreign msg)), s)
  | Ok version =>
      if String.eqb version EmptyString then ((EmptyString, Some MissingVersion), s)
      else
        let dir := filepath.Join (manifestDir (self s)) version in
        ((dir, (createDir dir s).1), (createDir dir s).2)
  end.
Proof.
  unfold createBundleDir. destruct (csvVersion csv) as [version|]; [|done].
  destruct (String.eqb version EmptyString); [done|].
  unfold bind, get_self, ret. by destruct (createDir _ s).
Qed.

Lemma createBundle_run csv s :
  createBundle csv s =
  match (createBundleDir csv s).1.2 with
  | Some e => (Some e, (createBundleDir csv s).2)
  | None =>
      let dir := (createBundleDir csv s).1.1 in
      let s1 := (createBundleDir csv s).2 in
      match (createCRDYAMLs csv dir s1).1 with
      | Some e => (Some e, (createCRDYAMLs csv dir s1).2)
      | None => createYAML (ObjCSV csv) (csv_file dir csv) (createCRDYAMLs csv dir s1).2
      end
  end.
Proof.
  unfold createBundle, bind at 1. destruct (createBundleDir csv s) as [[dir [e|]] s1]; [done|].
  simpl. apply or_return_run.
Qed.

Lemma createBundleDir_grows csv s : grows s (createBundleDir csv s).2.
Proof.
  rewrite createBundleDir_run. destruct (csvVersion csv) as [version|]; [|apply grows_refl].
  destruct (String.eqb version EmptyString); [apply grows_refl|]. apply createDir_grows.
Qed.

Lemma createBundleDir_events csv s :
  Forall dir_event (since s (createBundleDir csv s).2).
Proof.
  rewrite createBundleDir_run.
  destruct (csvVersion csv) as [version|]; [|by rewrite since_refl].
  destruct (String.eqb version EmptyString); [by rewrite since_refl|].
  simpl. rewrite createDir_since. constructor; [|done]. by eexists _, _.
Qed.

Lemma createCRDYAMLs_grows csv dir s : grows s (createCRDYAMLs csv dir s).2.
Proof.
  rewrite createCRDYAMLs_run. destruct (csvOwned csv); [|apply grows_refl].
  apply createOwned_grows.
Qed.

Lemma createCRDYAMLs_events csv dir s :
  Forall crd_event (since s (createCRDYAMLs csv dir s).2).
Proof.
  rewrite createCRDYAMLs_run. destruct (csvOwned csv); [|by rewrite since_refl].
  apply createOwned_events.
Qed.

Lemma createBundle_grows csv s : grows s (createBundle csv s).2.
Proof.
  rewrite createBundle_run.
  pose proof (createBundleDir_grows csv s) as G1.
  destruct (createBundleDir csv s).1.2; [done|]. cbv zeta.
  pose proof (createCRDYAMLs_grows csv (createBundleDir csv s).1.1 (createBundleDir csv s).2) as G2.
  destruct (createCRDYAMLs _ _ _).1; [by eapply grows_trans|].
  eapply grows_trans; [by eapply grows_trans|]. apply createYAML_grows.
Qed.

Lemma no_csv_dir h : Forall dir_event h → no_csv_event h.
Proof.
  intros Hh csv file err Hin. rewrite Forall_forall in Hh.
  by destruct (Hh _ Hin) as (? & ? & ?).
Qed.

Lemma no_csv_crd h : Forall crd_event h → no_csv_event h.
Proof.
  intros Hh csv file err Hin. rewrite Forall_forall in Hh.
  by destruct (Hh _ Hin) as (? & ? & ? & ?).
Qed.

Lemma no_csv_app h1 h2 : no_csv_event h1 → no_csv_event h2 → no_csv_event (h1 ++ h2).
Proof. intros H1 H2 csv file err Hin. apply elem_of_app in Hin as [?|?]; [by eapply H1|by eapply H2]. Qed.

(** The events of one bundle: either no descriptor was handed to
    [createYAML] and the bundle failed, or the descriptor is the last
    event, what comes before it holds a successful write of every owned
    definition, and those files are on the disk at the end. *)
Lemma createBundle_history csv s :
  let s' := (createBundle csv s).2 in
  (is_Some (createBundle csv s).1 ∧ no_csv_event (since s s'))
  ∨ (∃ dir keys h,
       since s s' = h ++ [EvCreateYAML (ObjCSV csv) (csv_file dir csv) (createBundle csv s).1] ∧
       no_csv_event h ∧
       csvOwned csv = Ok keys ∧
       Forall (λ k, ∃ crd,
                 crdMap (CustomResourceDefinitions (singleManifest (self s))) !! k = Some crd ∧
                 EvCreateYAML (ObjCRD crd) (crd_file dir crd) None ∈ h ∧
                 is_file (disk s') (crd_file dir crd)) keys).
Proof.
  cbv zeta. rewrite createBundle_run.
  pose proof (createBundleDir_grows csv s) as G1.
  pose proof (createBundleDir_events csv s) as V1.
  destruct (createBundleDir csv s).1.2 as [e|];
    [left; cbn [fst snd]; split; [by eexists|by apply no_csv_dir]|].
  cbv zeta. set (dir := (createBundleDir csv s).1.1). set (s1 := (createBundleDir csv s).2) in *.
  pose proof (createCRDYAMLs_grows csv dir s1) as G2.
  pose proof (createCRDYAMLs_events csv dir s1) as V2.
  destruct (createCRDYAMLs csv dir s1).1 as [e|] eqn:E2.
  { left. cbn [fst snd]. split; [by eexists|]. rewrite (since_trans _ _ _ G1 G2).
    apply no_csv_app; [by apply no_csv_dir|by apply no_csv_crd]. }
  right. set (s2 := (createCRDYAMLs csv dir s1).2) in *.
  pose proof (createYAML_grows (ObjCSV csv) (csv_file dir csv) s2) as G3.
  pose proof (createYAML_since (ObjCSV csv) (csv_file dir csv) s2) as V3.
  assert (Hself : self s1 = self s) by apply G1.
  revert E2 V2 G2. subst s2. rewrite createCRDYAMLs_run, Hself in *.
  destruct (csvOwned csv) as [keys|msg] eqn:Eo; [|done]. intros E2 V2 G2.
  set (m := crdMap (CustomResourceDefinitions (singleManifest (self s)))) in *.
  set (s2 := (createOwned m csv dir keys s1).2) in *.
  exists dir, keys, (since s s1 ++ since s1 s2).
  split_and!.
  - rewrite (since_trans s _ _ (grows_trans _ _ _ G1 G2) G3), V3.
    by rewrite (since_trans _ _ _ G1 G2).
  - apply no_csv_app; [by apply no_csv_dir|by apply no_csv_crd].
  - done.
  - eapply Forall_impl; [apply (createOwned_ok _ _ _ _ _ E2)|].
    intros k (crd & Hk & Hev & Hf). exists crd. split_and!; [done|set_solver|].
    eapply is_file_extends; [apply G3|done].
Qed.

End BundleFacts.

(** ** The whole manifest *)

Section CreateFacts.
Context {Y : Yaml}.

(** [createBundles] reports success whatever the bundles did. *)
Lemma createBundles_loop_nil csvs : ∀ s, (createBundles_loop csvs s).1 = None.
Proof.
  induction csvs as [|csv csvs IH]; intros s; [done|].
  simpl. unfold bind. destruct (createBundle csv s). apply IH.
Qed.

Lemma createBundles_nil s : (createBundles s).1 = None.
Proof. unfold createBundles, bind, get_self. apply createBundles_loop_nil. Qed.

Lemma createBundles_loop_cons csv csvs s :
  createBundles_loop (csv :: csvs) s = createBundles_loop csvs (createBundle csv s).2.
Proof. simpl. unfold bind. by destruct (createBundle csv s). Qed.

Lemma createBundles_loop_grows csvs : ∀ s, grows s (createBundles_loop csvs s).2.
Proof.
  induction csvs as [|csv csvs IH]; intros s; [apply grows_refl|].
  rewrite createBundles_loop_cons.
  eapply grows_trans; [apply createBundle_grows|apply IH].
Qed.

Lemma createBundles_grows s : grows s (createBundles s).2.
Proof. unfold createBundles, bind, get_self. apply createBundles_loop_grows. Qed.

Lemma createPackageYAML_run s :
  createPackageYAML s
  = createYAML (ObjPackage (Package (singleManifest (self s))))
      (filepath.Join (manifestDir (self s))
         (GetPackageID (singleManifest (self s)) +:+ ".package.yaml")) s.
Proof. done. Qed.

Lemma createPackageYAML_grows s : grows s (createPackageYAML s).2.
Proof. rewrite createPackageYAML_run. apply createYAML_grows. Qed.

Lemma createManifestDir_run s :
  createManifestDir s = createDir (root_dir (self s)) (rooted_state s).
Proof. done. Qed.

Lemma Create_run s :
  Create s =
  let s1 := (createDir (root_dir (self s)) (rooted_state s)).2 in
  match (createDir (root_dir (self s)) (rooted_state s)).1 with
  | Some e => (Some e, s1)
  | None =>
      match (createPackageYAML s1).1 with
      | Some e => (Some e, (createPackageYAML s1).2)
      | None => createBundles (createPackageYAML s1).2
      end
  end.
Proof.
  unfold Create. rewrite or_return_run, createManifestDir_run. cbv zeta.
  destruct (createDir _ _).1; [done|]. apply or_return_run.
Qed.

(** What [Create] leaves of the receiver. *)
Lemma Create_self s :
  singleManifest (self (Create s).2) = singleManifest (self s) ∧
  registryDir (self (Create s).2) = registryDir (self s) ∧
  manifestDir (self (Create s).2) = root_dir (self s).
Proof.
  rewrite Create_run. cbv zeta.
  pose proof (createDir_grows (root_dir (self s)) (rooted_state s)) as G1.
  set (s1 := (createDir (root_dir (self s)) (rooted_state s)).2) in *.
  assert (H1 : self s1 = self (rooted_state s)) by apply G1.
  destruct (createDir _ _).1; [cbn [snd]; by rewrite H1|].
  pose proof (createPackageYAML_grows s1) as G2.
  assert (H2 : self (createPackageYAML s1).2 = self s1) by apply G2.
  destruct (createPackageYAML s1).1; [cbn [snd]; by rewrite H2, H1|].
  pose proof (createBundles_grows (createPackageYAML s1).2) as G3.
  assert (H3 : self (createBundles (createPackageYAML s1).2).2
               = self (createPackageYAML s1).2) by apply G3.
  by rewrite H3, H2, H1.
Qed.

Lemma Create_root_dir s : root_dir (self (Create s).2) = root_dir (self s).
Proof. destruct (Create_self s) as (E1 & E2 & _). unfold root_dir. by rewrite E1, E2. Qed.

(** The disk after [Create] extends the disk before. *)
Lemma Create_extends s : extends (disk s) (disk (Create s).2).
Proof.
  rewrite Create_run. cbv zeta.
  pose proof (createDir_grows (root_dir (self s)) (rooted_state s)) as G1.
  set (s1 := (createDir (root_dir (self s)) (rooted_state s)).2) in *.
  assert (E1 : extends (disk s) (disk s1)) by apply G1.
  destruct (createDir _ _).1; [done|].
  pose proof (createPackageYAML_grows s1) as G2.
  destruct (createPackageYAML s1).1; [eapply extends_trans; [done|apply G2]|].
  pose proof (createBundles_grows (createPackageYAML s1).2) as G3.
  eapply extends_trans; [done|]. eapply extends_trans; [apply G2|apply G3].
Qed.

(** When the first step of [Create] fails nothing else is tried. *)
Lemma Create_root_fails s pe :
  OS.Mkdir (root_dir (self s)) perm_dir (disk s) = inl pe →
  let e := CreatingDir (PathErr pe) (root_dir (self s)) in
  (Create s).1 = Some e ∧ disk (Create s).2 = disk s ∧
  since s (Create s).2 = [EvCreateDir (root_dir (self s)) (Some e)].
Proof.
  intros Hm. cbv zeta. rewrite Create_run. cbv zeta.
  destruct (createDir_run (root_dir (self s)) (rooted_state s)) as (_ & Hh & Hr).
  change (disk (rooted_state s)) with (disk s) in Hr.
  change (history (rooted_state s)) with (history s) in Hh.
  destruct (createDir _ _).1 as [e|].
  - destruct Hr as (Hd & pe' & Hm' & ->). rewrite Hm in Hm'. inversion Hm'; subst pe'.
    cbn [fst snd]. split_and!; [done..|]. by apply since_app.
  - congruence.
Qed.

(** When it succeeds the package directory was not there before and is
    there afterwards. *)
Lemma Create_root_made s :
  OS.Mkdir (root_dir (self s)) perm_dir (disk s) = inr (disk (createDir (root_dir (self s)) (rooted_state s)).2) →
  ∃ k, OS.resolve (disk s) (root_dir (self s)) = Some k ∧
       OS.files (disk s) !! k = None ∧
       OS.parent_writable (OS.files (disk s)) k = true ∧
       is_Some (OS.files (disk (Create s).2) !! k).
Proof.
  intros Hm. pose proof Hm as Hm'.
  apply Mkdir_inr in Hm as (k & pperm & Hr & Hk & Hp & Hw & Hn & Hd).
  exists k. split_and!; [done..| |].
  { unfold OS.parent_writable. destruct k; [done|]. by rewrite Hp. }
  assert (Hx : exists_at (disk (createDir (root_dir (self s)) (rooted_state s)).2)
                 (root_dir (self s))).
  { exists k, (OS.Dir (Z.ldiff perm_dir (OS.umask (disk s)))).
    rewrite (resolve_extends _ _ _ (Mkdir_extends _ _ _ _ Hm')), Hd.
    split; [done|]. apply lookup_insert_eq. }
  assert (Hx' : exists_at (disk (Create s).2) (root_dir (self s))).
  { rewrite Create_run. cbv zeta.
    set (s1 := (createDir (root_dir (self s)) (rooted_state s)).2) in *.
    destruct (createDir _ _).1; [done|].
    pose proof (createPackageYAML_grows s1) as G2.
    destruct (createPackageYAML s1).1;
      [eapply exists_at_extends; [apply G2|done]|].
    pose proof (createBundles_grows (createPackageYAML s1).2) as G3.
    eapply exists_at_extends; [apply G3|].
    eapply exists_at_extends; [apply G2|done]. }
  destruct Hx' as (k' & n & Hr' & Hk').
  rewrite (resolve_extends _ _ _ (Create_extends s)), Hr in Hr'.
  inversion Hr'; subst k'. by exists n.
Qed.

End CreateFacts.

(** ** Removal *)

Section RemoveFacts.
Import OS.

Lemma is_prefix_spec q k : is_prefix q k = true ↔ ∃ suf, k = q ++ suf.
Proof.
  revert k. induction q as [|a q IH]; intros k; simpl.
  - split; [by exists k|done].
  - destruct k as [|b k].
    + split; [done|]. by intros [suf ?].
    + rewrite andb_true_iff, IH. split.
      * intros [Hab [suf ->]]. apply String.eqb_eq in Hab as ->. by exists suf.
      * intros [suf [= -> ->]]. split; [apply String.eqb_refl|by exists suf].
Qed.

Lemma is_prefix_refl q : is_prefix q q = true.
Proof. apply is_prefix_spec. exists []. by rewrite app_nil_r. Qed.

Lemma is_prefix_trans q k j :
  is_prefix q k = true → is_prefix k j = true → is_prefix q j = true.
Proof.
  rewrite !is_prefix_spec. intros [s1 ->] [s2 ->]. exists (s1 ++ s2). by rewrite app_assoc.
Qed.



Lemma survives_false m k :
  survives m k = false ↔
  ∀ j n, m !! j = Some n → is_prefix k j = true → parent_writable m j = true.
Proof.
  unfold survives, stuck. split.
  - intros He j n Hj Hp.
    destruct (parent_writable m j) eqn:Ew; [done|].
    assert (Ht : existsb (λ jn, is_prefix k jn.1 && negb (parent_writable m jn.1))
                   (map_to_list m) = true); [|congruence].
    apply existsb_exists. exists (j, n). split.
    + apply list_elem_of_In. by apply elem_of_map_to_list.
    + simpl. by rewrite Hp, Ew.
  - intros Hall. apply not_true_is_false. intros He.
    apply existsb_exists in He as ([j n] & Hin & Hb). simpl in Hb.
    apply list_elem_of_In, elem_of_map_to_list in Hin.
    apply andb_true_iff in Hb as [Hp Hw].
    rewrite (Hall j n Hin Hp) in Hw. done.
Qed.

Lemma survives_below m q k :
  survives m q = false → is_prefix q k = true → survives m k = false.
Proof.
  rewrite !survives_false. intros Hq Hp j n Hj Hkj.
  eapply Hq; [done|]. by eapply is_prefix_trans.
Qed.




(** A removal that meets nothing it cannot unlink reports success and
    leaves nothing at or below the path; the rest of the disk is as
    before. *)
Lemma RemoveAll_clean path d q n :
  resolve d path = Some q → files d !! q = Some n → survives (files d) q = false →
  (RemoveAll path d).1 = None ∧
  (∀ j, is_prefix q j = true → files (RemoveAll path d).2 !! j = None) ∧
  (∀ j, is_prefix q j = false → files (RemoveAll path d).2 !! j = files d !! j).
Proof.
  intros Hr Hq Hs. unfold RemoveAll. rewrite Hr, Hq, Hs. simpl. split_and!; [done|..].
  - intros j Hp. apply map_lookup_filter_None. right. intros x Hx.
    unfold removed. simpl. rewrite Hp, (survives_below _ _ _ Hs Hp). done.
  - intros j Hp. destruct (files d !! j) as [x|] eqn:Ej.
    + apply map_lookup_filter_Some. split; [done|]. unfold removed. simpl. by rewrite Hp.
    + apply map_lookup_filter_None. by left.
Qed.


End RemoveFacts.

Section DeleteFacts.
Context {Y : Yaml}.

Lemma Delete_run s :
  Delete s =
  if String.eqb (manifestDir (self s)) EmptyString then (None, s)
  else
    let r := option_map PathErr (OS.RemoveAll (manifestDir (self s)) (disk s)).1 in
    (r, {| self := self s;
           disk := (OS.RemoveAll (manifestDir (self s)) (disk s)).2;
           history := history s ++ [EvRemoveAll (manifestDir (self s)) r] |}).
Proof.
  unfold Delete, bind, get_self. destruct (String.eqb _ _); [done|].
  by destruct (OS.RemoveAll _ _).
Qed.


Lemma Delete_ok s :
  String.eqb (manifestDir (self s)) EmptyString = false →
  (Delete s).1 = None ↔ (OS.RemoveAll (manifestDir (self s)) (disk s)).1 = None.
Proof.
  intros E. rewrite Delete_run, E. cbv zeta. cbn [fst].
  by destruct (OS.RemoveAll _ _).1.
Qed.

Lemma Delete_disk s :
  String.eqb (manifestDir (self s)) EmptyString = false →
  disk (Delete s).2 = (OS.RemoveAll (manifestDir (self s)) (disk s)).2.
Proof. intros E. by rewrite Delete_run, E. Qed.


End DeleteFacts.

(** ** The properties of the specification *)

Section Claims.
Context {Y : Yaml} {F : Fmt}.

(** C4. A release whose version is missing (the accessor fails or
    yields the empty string) is not materialized: [createBundle] fails
    and leaves the state, hence the disk, as it was, so no directory is
    made under any name.  For the empty string the error is the builder's
    own, "Unable to create bundle dir as CSV is missing version"; an
    accessor failure is passed on as it is. *)
Theorem missing_version_fails csv s :
  version_missing csv →
  ∃ e, createBundle csv s = (Some e, s) ∧
       match csvVersion csv with
       | Ok _ => e = MissingVersion ∧
                 Error e = "Unable to create bundle dir as CSV is missing version"
       | Fail msg => e = Foreign msg
       end.
Proof.
  unfold version_missing. intros Hv.
  rewrite createBundle_run, createBundleDir_run.
  destruct (csvVersion csv) as [version|msg]; [|by eexists].
  subst version. by eexists.
Qed.


(** C3 (as amended). A release that owns a key the package does not
    hold is not materialized: [createBundle] fails and the descriptor
    is never handed to the serializer.  When the bundle directory was
    made and the definitions referenced before the first such key were
    written, the error is the one that names this key and the release:
    "Owned CRD <key> for CSV <name> not found". *)
Theorem unresolved_reference_aborts csv s pre k post :
  let m := crdMap (CustomResourceDefinitions (singleManifest (self s))) in
  csvOwned csv = Ok (pre ++ k :: post) →
  m !! k = None →
  is_Some (createBundle csv s).1 ∧
  no_csv_event (since s (createBundle csv s).2) ∧
  ∀ dir s1 s2,
    createBundleDir csv s = ((dir, None), s1) →
    createOwned m csv dir pre s1 = (None, s2) →
    createBundle csv s = (Some (OwnedNotFound k (csvName csv)), s2) ∧
    Error (OwnedNotFound k (csvName csv))
    = "Owned CRD " +:+ sprint_key k +:+ " for CSV " +:+ csvName csv +:+ " not found".
Proof.
  cbv zeta. intros Ho Hk.
  assert (Hfail : is_Some (createBundle csv s).1 ∧
                  no_csv_event (since s (createBundle csv s).2)).
  { destruct (createBundle_history csv s) as [?|(dir & keys & h & _ & _ & Ho' & Hw)]; [done|].
    rewrite Ho in Ho'. inversion Ho'; subst keys.
    rewrite Forall_forall in Hw. destruct (Hw k) as (crd & Hcrd & _); [set_solver|congruence]. }
  destruct Hfail as [Hfail Hnone]. split_and!; [done..|].
  - intros dir s1 s2 Hdir Hpre. split; [|done].
    rewrite createBundle_run, Hdir. cbn [fst snd]. cbv zeta.
    pose proof (createBundleDir_grows csv s) as G. rewrite Hdir in G. cbn [snd] in G.
    rewrite createCRDYAMLs_run, Ho. destruct G as [-> _ _].
    by rewrite (createOwned_first_unresolved _ _ _ _ _ _ _ _ Hk Hpre).
Qed.


Lemma crdMap_snoc crds crd : crdMap (crds ++ [crd]) = <[Key crd := crd]> (crdMap crds).
Proof. unfold crdMap. by rewrite fold_left_app. Qed.

Lemma crdMap_later crds later k :
  Forall (λ c, Key c ≠ k) later → crdMap (crds ++ later) !! k = crdMap crds !! k.
Proof.
  induction later as [|c later IH] using rev_ind; intros Hl; [by rewrite app_nil_r|].
  apply Forall_app in Hl as [Hl Hc]. inversion Hc; subst.
  rewrite app_assoc, crdMap_snoc, lookup_insert_ne; [by apply IH|done].
Qed.

(** C10. When several definitions of the collection share a key, the
    map built by [createCRDYAMLs] holds the one that comes last, and a
    release that owns the key gets exactly that definition written:
    the step does what writing it does, with no error of its own. *)
Theorem duplicate_key_latest_wins csv dir s earlier crd later keys :
  CustomResourceDefinitions (singleManifest (self s)) = earlier ++ crd :: later →
  Forall (λ c, Key c ≠ Key crd) later →
  csvOwned csv = Ok (Key crd :: keys) →
  let m := crdMap (CustomResourceDefinitions (singleManifest (self s))) in
  m !! Key crd = Some crd ∧
  createCRDYAMLs csv dir s
  = (createCRDYAML crd dir >>? createOwned m csv dir keys) s.
Proof.
  intros Hc Hl Ho m.
  assert (Hm : m !! Key crd = Some crd).
  { subst m. rewrite Hc.
    change (earlier ++ crd :: later) with (earlier ++ [crd] ++ later).
    rewrite app_assoc, crdMap_later, crdMap_snoc by done. apply lookup_insert_eq. }
  split; [done|]. rewrite createCRDYAMLs_run, Ho. fold m. simpl. by rewrite Hm.
Qed.

(** C9. A second [Create] on the same builder, or a [Create] whose
    package directory is already there, fails in [createManifestDir]:
    the error is that of [Mkdir] on the package directory, nothing else
    is tried and the disk stays as it was. *)
Theorem create_again_fails s :
  (∃ s0, s = (Create s0).2) ∨ exists_at (disk s) (root_dir (self s)) →
  ∃ pe,
    let e := CreatingDir (PathErr pe) (root_dir (self s)) in
    OS.Op pe = "mkdir" ∧ OS.Path pe = root_dir (self s) ∧
    (Create s).1 = Some e ∧
    disk (Create s).2 = disk s ∧
    since s (Create s).2 = [EvCreateDir (root_dir (self s)) (Some e)].
Proof.
  intros H.
  assert (Hm : ∃ pe, OS.Mkdir (root_dir (self s)) perm_dir (disk s) = inl pe).
  { destruct H as [[s0 ->]|(k & n & Hr & Hk)].
    - rewrite Create_root_dir.
      destruct (createDir_run (root_dir (self s0)) (rooted_state s0)) as (_ & _ & Hr).
      change (disk (rooted_state s0)) with (disk s0) in Hr.
      destruct (createDir _ _).1 as [e|] eqn:E1.
      + destruct Hr as (_ & pe & Hm & _).
        destruct (Create_root_fails s0 pe Hm) as (_ & -> & _). by exists pe.
      + destruct (Create_root_made s0 Hr) as (k & Hk & _ & _ & Hs).
        eapply Mkdir_taken; [by rewrite (resolve_extends _ _ _ (Create_extends s0))|].
        by destruct Hs as [n ->].
    - eapply Mkdir_taken; [done|congruence]. }
  destruct Hm as [pe Hm]. exists pe. cbv zeta.
  destruct (Mkdir_inl_path _ _ _ _ Hm) as [? ?].
  destruct (Create_root_fails s pe Hm) as (? & ? & ?). done.
Qed.



Lemma dir_perm_owner_only u : Z.land (Z.ldiff perm_dir u) 63 = 0.
Proof.
  apply Z.bits_inj'. intros n _.
  rewrite Z.land_spec, Z.ldiff_spec, Z.bits_0.
  assert (Hd : Z.testbit perm_dir n && Z.testbit 63 n = false).
  { rewrite <- Z.land_spec. apply Z.bits_0. }
  destruct (Z.testbit perm_dir n), (Z.testbit 63 n), (Z.testbit u n); done.
Qed.

(** C6 (as amended). [createDir] asks for mode 0700 and [createYAML]
    for mode 0666, and what is created gets the mode less the umask: a
    new directory never has a group or other bit, a new file has mode
    0666 less the umask, and a file that was there keeps its mode.
    Under umask 022 that is 0700 for directories and 0644 for new
    files. *)
Theorem created_modes obj dir file s :
  ((createDir dir s).1 = None →
     ∃ k, OS.resolve (disk s) dir = Some k ∧
          OS.files (disk s) !! k = None ∧
          OS.files (disk (createDir dir s).2) !! k
          = Some (OS.Dir (Z.ldiff 448 (OS.umask (disk s)))) ∧
          Z.land (Z.ldiff 448 (OS.umask (disk s))) 63 = 0) ∧
  ((createYAML obj file s).1 = None →
     ∃ k raw, OS.resolve (disk s) file = Some k ∧ Marshal obj = Ok raw ∧
       match OS.files (disk s) !! k with
       | None =>
           OS.files (disk (createYAML obj file s).2) !! k
           = Some (OS.File (Z.ldiff 438 (OS.umask (disk s))) raw)
       | Some (OS.File fperm _) =>
           OS.files (disk (createYAML obj file s).2) !! k = Some (OS.File fperm raw)
       | Some (OS.Dir _) => False
       end) ∧
  (Z.ldiff 448 18 = 448 ∧ Z.ldiff 438 18 = 420).
Proof.
  split_and!; [| |done..].
  - intros Hok. destruct (createDir_run dir s) as (_ & _ & Hr). rewrite Hok in Hr.
    apply Mkdir_inr in Hr as (k & pperm & Hk & _ & _ & _ & Hfree & ->).
    exists k. split_and!; [done..| |apply dir_perm_owner_only].
    apply lookup_insert_eq.
  - intros Hok. destruct (createYAML_run obj file s) as (_ & _ & Hr). rewrite Hok in Hr.
    destruct Hr as (raw & Hraw & Hw).
    apply WriteFile_inr in Hw as (k & Hk & _ & [(Hfree & _ & ->)|(fperm & old & Hold & ->)]).
    + exists k, raw. split_and!; [done..|]. rewrite Hfree. apply lookup_insert_eq.
    + exists k, raw. split_and!; [done..|]. rewrite Hold. apply lookup_insert_eq.
Qed.

End Claims.

(** ** Where the builder writes *)

Section Confinement.
Context {Y : Yaml}.

Lemma has_sep_append a b : has_sep (a +:+ b) = has_sep a || has_sep b.
Proof.
  induction a as [|x a IH]; [done|].
  change (has_sep (String x (a +:+ b)) = has_sep (String x a) || has_sep b).
  simpl. by rewrite IH, orb_assoc.
Qed.

Lemma length_append a b : String.length (a +:+ b) = (String.length a + String.length b)%nat.
Proof.
  induction a as [|x a IH]; [done|].
  change (S (String.length (a +:+ b)) = S (String.length a + String.length b)). by rewrite IH.
Qed.

(** A name without separator followed by a suffix of the builder is a
    plain name. *)
Lemma simple_suffixed name suffix :
  has_sep name = false → has_sep suffix = false → (2 < String.length suffix)%nat →
  simple_name (name +:+ suffix) = true.
Proof.
  intros Hn Hs Hl. unfold simple_name, filepath.is_dot, filepath.is_dotdot.
  rewrite has_sep_append, Hn, Hs.
  assert (Hlen : (2 < String.length (name +:+ suffix))%nat) by (rewrite length_append; lia).
  destruct (String.eqb_spec (name +:+ suffix) EmptyString) as [E|_];
    [rewrite E in Hlen; simpl in Hlen; lia|].
  destruct (String.eqb_spec (name +:+ suffix) ".") as [E|_];
    [rewrite E in Hlen; simpl in Hlen; lia|].
  destruct (String.eqb_spec (name +:+ suffix) "..") as [E|_];
    [rewrite E in Hlen; simpl in Hlen; lia|].
  done.
Qed.

Lemma resolve_not_empty d p k : OS.resolve d p = Some k → String.eqb p EmptyString = false.
Proof. unfold OS.resolve. by destruct (String.eqb p EmptyString). Qed.

(** A file the builder derives lies directly in its directory. *)
Lemma resolve_in_dir d dir k name suffix :
  OS.resolve d dir = Some k → has_sep name = false →
  has_sep suffix = false → (2 < String.length suffix)%nat →
  OS.resolve d (filepath.Join dir (name +:+ suffix)) = Some (k ++ [name +:+ suffix]).
Proof.
  intros Hk Hn Hs Hl.
  rewrite resolve_Join, Hk; [done|by eapply resolve_not_empty|by apply simple_suffixed].
Qed.

Lemma same_outside_refl q d : same_outside q d d.
Proof. by intros j _. Qed.

Lemma same_outside_trans q d1 d2 d3 :
  same_outside q d1 d2 → same_outside q d2 d3 → same_outside q d1 d3.
Proof. intros H1 H2 j Hj. by rewrite H2, H1. Qed.

(** What agrees outside a directory agrees outside a directory above. *)
Lemma same_outside_above q q' d d' :
  OS.is_prefix q q' = true → same_outside q' d d' → same_outside q d d'.
Proof.
  intros Hq H j Hj. apply H.
  destruct (OS.is_prefix q' j) eqn:E; [|done].
  by rewrite (is_prefix_trans _ _ _ Hq E) in Hj.
Qed.

Lemma is_prefix_snoc q c : OS.is_prefix q (q ++ [c]) = true.
Proof. apply is_prefix_spec. by exists [c]. Qed.

Lemma same_outside_insert q d k n :
  OS.is_prefix q k = true → same_outside q d (OS.with_files d (<[k := n]> (OS.files d))).
Proof.
  intros Hk j Hj. simpl. apply lookup_insert_ne. intros ->. congruence.
Qed.

Lemma createDir_confined q dir k s :
  OS.resolve (disk s) dir = Some k → OS.is_prefix q k = true →
  same_outside q (disk s) (disk (createDir dir s).2).
Proof.
  intros Hk Hq. destruct (createDir_run dir s) as (_ & _ & Hr).
  destruct (createDir dir s).1.
  - destruct Hr as [-> _]. apply same_outside_refl.
  - apply Mkdir_inr in Hr as (k' & pperm & Hk' & _ & _ & _ & _ & ->).
    rewrite Hk in Hk'. injection Hk' as <-. by apply same_outside_insert.
Qed.

Lemma createYAML_confined q obj file k s :
  OS.resolve (disk s) file = Some k → OS.is_prefix q k = true →
  same_outside q (disk s) (disk (createYAML obj file s).2).
Proof.
  intros Hk Hq. destruct (createYAML_run obj file s) as (_ & _ & Hr).
  destruct (createYAML obj file s).1.
  - rewrite Hr. apply same_outside_refl.
  - destruct Hr as (raw & _ & Hw).
    apply WriteFile_inr in Hw as (k' & Hk' & _ & [(_ & _ & ->)|(fperm & old & _ & ->)]);
      rewrite Hk in Hk'; injection Hk' as <-; by apply same_outside_insert.
Qed.

(** The map of [createCRDYAMLs] holds definitions of the package only. *)
Lemma crdMap_elem crds k crd : crdMap crds !! k = Some crd → crd ∈ crds.
Proof.
  induction crds as [|c crds IH] using rev_ind; [done|].
  rewrite crdMap_snoc. intros H. apply elem_of_app.
  destruct (decide (Key c = k)) as [E|E].
  - rewrite E, lookup_insert_eq in H. injection H as ->. right. set_solver.
  - rewrite lookup_insert_ne in H by done. left. by apply IH.
Qed.

Lemma createOwned_confined crds csv dir kv keys :
  Forall (λ crd, has_sep (crdName crd) = false) crds →
  ∀ s, OS.resolve (disk s) dir = Some kv →
       same_outside kv (disk s) (disk (createOwned (crdMap crds) csv dir keys s).2).
Proof.
  intros Hcrds. induction keys as [|k keys IH]; intros s Hkv; [apply same_outside_refl|].
  rewrite createOwned_cons. destruct (crdMap crds !! k) as [crd|] eqn:Ek;
    [|apply same_outside_refl].
  assert (Hname : has_sep (crdName crd) = false).
  { rewrite Forall_forall in Hcrds. by eapply Hcrds, crdMap_elem. }
  assert (Hc : same_outside kv (disk s) (disk (createYAML (ObjCRD crd) (crd_file dir crd) s).2)).
  { eapply createYAML_confined; [|apply is_prefix_snoc].
    unfold crd_file, GetName. apply resolve_in_dir; [done..|simpl; lia]. }
  destruct (createYAML (ObjCRD crd) (crd_file dir crd) s).1; [done|].
  eapply same_outside_trans; [exact Hc|]. apply IH.
  by rewrite (resolve_extends _ _ _ (grows_disk _ _ (createYAML_grows _ _ _))).
Qed.

(** One bundle changes nothing outside its own directory. *)
Lemma createBundle_confined csv s q :
  OS.resolve (disk s) (manifestDir (self s)) = Some q →
  plain_release csv →
  Forall (λ crd, has_sep (crdName crd) = false)
    (CustomResourceDefinitions (singleManifest (self s))) →
  same_outside (q ++ [version_of csv]) (disk s) (disk (createBundle csv s).2).
Proof.
  intros Hq [Hname Hver] Hcrds. rewrite createBundle_run, createBundleDir_run.
  unfold version_of in *.
  destruct (csvVersion csv) as [v|msg]; [|apply same_outside_refl].
  destruct (String.eqb v EmptyString) eqn:Ev; [apply same_outside_refl|].
  simpl in Hver. cbv zeta. cbn [fst snd].
  set (dir := filepath.Join (manifestDir (self s)) v).
  assert (Hdir : OS.resolve (disk s) dir = Some (q ++ [v])).
  { unfold dir. rewrite resolve_Join, Hq; [done|by eapply resolve_not_empty|done]. }
  pose proof (createDir_confined (q ++ [v]) dir _ s Hdir (is_prefix_refl _)) as C1.
  pose proof (createDir_grows dir s) as G1.
  destruct (createDir dir s).1; [done|].
  set (s1 := (createDir dir s).2) in *.
  assert (Hdir1 : OS.resolve (disk s1) dir = Some (q ++ [v]))
    by (by rewrite (resolve_extends _ _ _ (grows_disk _ _ G1))).
  rewrite createCRDYAMLs_run.
  assert (C2 : same_outside (q ++ [v]) (disk s1)
                 (disk (match csvOwned csv with
                        | Ok keys =>
                            createOwned
                              (crdMap (CustomResourceDefinitions (singleManifest (self s1))))
                              csv dir keys s1
                        | Fail msg => (Some (Foreign msg), s1)
                        end).2)).
  { destruct (csvOwned csv); [|apply same_outside_refl].
    apply createOwned_confined; [|done]. by rewrite (grows_self _ _ G1). }
  assert (G2 : grows s1 (match csvOwned csv with
                        | Ok keys =>
                            createOwned
                              (crdMap (CustomResourceDefinitions (singleManifest (self s1))))
                              csv dir keys s1
                        | Fail msg => (Some (Foreign msg), s1)
                        end).2).
  { destruct (csvOwned csv); [apply createOwned_grows|apply grows_refl]. }
  destruct (match csvOwned csv with Ok _ => _ | Fail _ => _ end) as [r2 s2]. cbn [fst snd] in *.
  destruct r2; [by eapply same_outside_trans|].
  eapply same_outside_trans; [by eapply same_outside_trans|].
  eapply createYAML_confined; [|apply is_prefix_snoc].
  rewrite (resolve_extends _ _ _ (grows_disk _ _ G2)).
  unfold csv_file. apply resolve_in_dir; [done..|simpl; lia].
Qed.

Lemma createBundles_loop_confined csvs q : ∀ s,
  OS.resolve (disk s) (manifestDir (self s)) = Some q →
  Forall plain_release csvs →
  Forall (λ crd, has_sep (crdName crd) = false)
    (CustomResourceDefinitions (singleManifest (self s))) →
  same_outside q (disk s) (disk (createBundles_loop csvs s).2).
Proof.
  induction csvs as [|csv csvs IH]; intros s Hq Hcsvs Hcrds; [apply same_outside_refl|].
  inversion Hcsvs; subst. rewrite createBundles_loop_cons.
  pose proof (createBundle_grows csv s) as G.
  eapply same_outside_trans.
  - eapply same_outside_above; [apply is_prefix_snoc|by apply createBundle_confined].
  - apply IH; [|done|by rewrite (grows_self _ _ G)].
    by rewrite (grows_self _ _ G), (resolve_extends _ _ _ (grows_disk _ _ G)).
Qed.

End Confinement.

(** ** Further properties of the builder *)

Section Further.
Context {Y : Yaml}.

(** X1. The result of [Create] is the error of the package directory,
    else the error of the package descriptor, else nil: no error of a
    release reaches the caller. *)
Theorem create_result s :
  (Create s).1 =
  match (createManifestDir s).1 with
  | Some e => Some e
  | None => (createPackageYAML (createManifestDir s).2).1
  end.
Proof.
  rewrite Create_run, createManifestDir_run. cbv zeta.
  destruct (createDir _ _).1; [done|].
  destruct (createPackageYAML _).1; [done|]. apply createBundles_nil.
Qed.

(** X2. [Create] removes nothing and changes no directory and no mode:
    a directory that was there is there unchanged, and a file that was
    there is still a file with the mode it had. *)
Theorem create_keeps_entries s k :
  let d := disk s in
  let d' := disk (Create s).2 in
  match OS.files d !! k with
  | Some (OS.Dir perm) => OS.files d' !! k = Some (OS.Dir perm)
  | Some (OS.File perm _) => ∃ data, OS.files d' !! k = Some (OS.File perm data)
  | None => True
  end.
Proof.
  cbv zeta. pose proof (Create_extends s) as E.
  destruct (OS.files (disk s) !! k) as [[perm|perm data]|] eqn:Hk; [| |done].
  - by apply (ext_dir _ _ E).
  - by apply (ext_file _ _ E _ _ data).
Qed.

(** A release whose bundle directory is taken fails in [createDir]. *)
Lemma createBundle_taken csv s version :
  csvVersion csv = Ok version → String.eqb version EmptyString = false →
  exists_at (disk s) (filepath.Join (manifestDir (self s)) version) →
  ∃ pe,
    let dir := filepath.Join (manifestDir (self s)) version in
    let e := CreatingDir (PathErr pe) dir in
    OS.Mkdir dir perm_dir (disk s) = inl pe ∧
    (createBundle csv s).1 = Some e ∧
    disk (createBundle csv s).2 = disk s ∧
    since s (createBundle csv s).2 = [EvCreateDir dir (Some e)].
Proof.
  intros Hv Hne (k & n & Hk & Hn). cbv zeta.
  rewrite createBundle_run, createBundleDir_run, Hv, Hne. cbv zeta. cbn [fst snd].
  set (dir := filepath.Join (manifestDir (self s)) version) in *.
  destruct (Mkdir_taken dir perm_dir (disk s) k Hk) as [pe Hm]; [congruence|].
  destruct (createDir_run dir s) as (_ & _ & Hr).
  pose proof (createDir_since dir s) as Hs.
  destruct (createDir dir s).1 as [e|]; [|congruence].
  destruct Hr as (Hd & pe' & Hm' & ->). exists pe'. cbn [fst snd]. done.
Qed.

(** X3. A release whose bundle directory is taken is not merged into
    it: [createBundle] fails with the error of [Mkdir] on that directory,
    calls nothing else and leaves the disk as it was. *)
Theorem bundle_dir_taken csv s version :
  csvVersion csv = Ok version → String.eqb version EmptyString = false →
  exists_at (disk s) (filepath.Join (manifestDir (self s)) version) →
  ∃ pe,
    let dir := filepath.Join (manifestDir (self s)) version in
    let e := CreatingDir (PathErr pe) dir in
    OS.Op pe = "mkdir" ∧ OS.Path pe = dir ∧
    (createBundle csv s).1 = Some e ∧
    disk (createBundle csv s).2 = disk s ∧
    since s (createBundle csv s).2 = [EvCreateDir dir (Some e)].
Proof.
  intros Hv Hne Hex.
  destruct (createBundle_taken csv s version Hv Hne Hex) as (pe & Hm & H1 & H2 & H3).
  exists pe. cbv zeta. destruct (Mkdir_inl_path _ _ _ _ Hm) as [? ?]. done.
Qed.

Lemma all_ok_app h1 h2 : all_ok h1 → all_ok h2 → all_ok (h1 ++ h2).
Proof. intros H1 H2. apply Forall_app. by split. Qed.

(** The calls of the loop over the owned keys all succeed, except
    possibly the last, whose error is then the error of the loop. *)
Lemma createOwned_trail m csv dir keys : ∀ s,
  let r := (createOwned m csv dir keys s).1 in
  let h := since s (createOwned m csv dir keys s).2 in
  all_ok h ∨ ∃ h' ev e, h = h' ++ [ev] ∧ all_ok h' ∧ event_err ev = Some e ∧ r = Some e.
Proof.
  induction keys as [|k keys IH]; intros s; cbv zeta.
  { left. rewrite since_refl. constructor. }
  rewrite createOwned_cons. destruct (m !! k) as [crd|];
    [|left; rewrite since_refl; constructor].
  pose proof (createYAML_grows (ObjCRD crd) (crd_file dir crd) s) as G.
  pose proof (createYAML_since (ObjCRD crd) (crd_file dir crd) s) as E.
  destruct (createYAML (ObjCRD crd) (crd_file dir crd) s).1 as [e|] eqn:E1.
  - right. exists [], (EvCreateYAML (ObjCRD crd) (crd_file dir crd) (Some e)), e.
    cbn [fst snd]. split_and!; [by rewrite E|constructor|done|done].
  - set (s1 := (createYAML (ObjCRD crd) (crd_file dir crd) s).2) in *.
    rewrite (since_trans _ _ _ G (createOwned_grows m csv dir keys s1)), E.
    destruct (IH s1) as [Hok|(h' & ev & e & Hh & Hok & Hev & Hr)].
    + left. apply all_ok_app; [by repeat constructor|done].
    + right. exists (EvCreateYAML (ObjCRD crd) (crd_file dir crd) None :: h'), ev, e.
      split_and!; [by rewrite Hh|by constructor|done|done].
Qed.

(** The same for one bundle. *)
Lemma createBundle_trail csv s :
  let r := (createBundle csv s).1 in
  let h := since s (createBundle csv s).2 in
  (all_ok h ∨ ∃ h' ev e, h = h' ++ [ev] ∧ all_ok h' ∧ event_err ev = Some e ∧ r = Some e) ∧
  (r = None → all_ok h).
Proof.
  cbv zeta.
  assert (H : all_ok (since s (createBundle csv s).2) ∨
              ∃ h' ev e, since s (createBundle csv s).2 = h' ++ [ev] ∧ all_ok h' ∧
                         event_err ev = Some e ∧ (createBundle csv s).1 = Some e).
  { rewrite createBundle_run, createBundleDir_run.
    destruct (csvVersion csv) as [v|msg]; [|left; cbn [fst snd]; rewrite since_refl; constructor].
    destruct (String.eqb v EmptyString);
      [left; cbn [fst snd]; rewrite since_refl; constructor|].
    cbv zeta. cbn [fst snd].
    set (dir := filepath.Join (manifestDir (self s)) v).
    pose proof (createDir_grows dir s) as G1.
    pose proof (createDir_since dir s) as E1.
    destruct (createDir dir s).1 as [e|] eqn:R1.
    { right. exists [], (EvCreateDir dir (Some e)), e. cbn [fst snd].
      split_and!; [by rewrite E1|constructor|done|done]. }
    set (s1 := (createDir dir s).2) in *.
    pose proof (createCRDYAMLs_grows csv dir s1) as G2.
    assert (T2 : all_ok (since s1 (createCRDYAMLs csv dir s1).2) ∨
                 ∃ h' ev e, since s1 (createCRDYAMLs csv dir s1).2 = h' ++ [ev] ∧ all_ok h' ∧
                            event_err ev = Some e ∧ (createCRDYAMLs csv dir s1).1 = Some e).
    { rewrite createCRDYAMLs_run. destruct (csvOwned csv);
        [apply createOwned_trail|left; cbn [snd]; rewrite since_refl; constructor]. }
    destruct (createCRDYAMLs csv dir s1).1 as [e|] eqn:R2.
    { cbn [fst snd]. rewrite (since_trans _ _ _ G1 G2), E1.
      destruct T2 as [Hok|(h' & ev & e' & Hh & Hok & Hev & Hr)].
      - left. apply all_ok_app; [by repeat constructor|done].
      - right. exists (EvCreateDir dir None :: h'), ev, e'.
        split_and!; [by rewrite Hh|by constructor|done|done]. }
    destruct T2 as [Hok|(h' & ev & e' & Hh & Hok & Hev & Hr)]; [|done].
    set (s2 := (createCRDYAMLs csv dir s1).2) in *.
    pose proof (createYAML_grows (ObjCSV csv) (csv_file dir csv) s2) as G3.
    pose proof (createYAML_since (ObjCSV csv) (csv_file dir csv) s2) as E3.
    rewrite (since_trans s s2 _ (grows_trans _ _ _ G1 G2) G3), E3, (since_trans _ _ _ G1 G2), E1.
    destruct (createYAML (ObjCSV csv) (csv_file dir csv) s2).1 as [e|].
    - right. exists (EvCreateDir dir None :: since s1 s2),
               (EvCreateYAML (ObjCSV csv) (csv_file dir csv) (Some e)), e.
      split_and!; [done|by constructor|done|done].
    - left. apply all_ok_app; [by constructor|by repeat constructor]. }
  split; [exact H|]. intros Hr.
  destruct H as [?|(h' & ev & e & _ & _ & _ & He)]; [done|congruence].
Qed.

(** X4. One bundle stops at its first failure: of the calls it makes to
    [createDir] and [createYAML] all succeed except possibly the last,
    and when the last fails its error is the error of the bundle; a
    bundle that succeeds saw no call fail. *)
Theorem bundle_stops_at_first_failure csv s :
  let r := (createBundle csv s).1 in
  let h := since s (createBundle csv s).2 in
  (all_ok h ∨ ∃ h' ev e, h = h' ++ [ev] ∧ all_ok h' ∧ event_err ev = Some e ∧ r = Some e) ∧
  (r = None → all_ok h) ∧
  (∀ i ev e, h !! i = Some ev → event_err ev = Some e → S i = length h ∧ r = Some e).
Proof.
  cbv zeta. destruct (createBundle_trail csv s) as [H1 H2]. split_and!; [done..|].
  intros i ev e Hi He.
  destruct H1 as [Hok|(h' & ev' & e' & Hh & Hok & Hev & Hr)].
  - unfold all_ok in Hok. rewrite Forall_lookup in Hok. specialize (Hok i ev Hi). congruence.
  - rewrite Hh in Hi |- *. rewrite length_app. simpl.
    destruct (decide (i < length h')%nat) as [Hlt|Hge].
    + rewrite lookup_app_l in Hi by done.
      unfold all_ok in Hok. rewrite Forall_lookup in Hok. specialize (Hok i ev Hi). congruence.
    + rewrite lookup_app_r in Hi by lia.
      destruct (i - length h')%nat as [|n] eqn:En; [|by destruct n].
      simpl in Hi. injection Hi as <-. split; [lia|congruence].
Qed.

(** With plain names [Create] writes in the package directory only. *)
Lemma Create_same_outside s q :
  plain_package (singleManifest (self s)) →
  OS.resolve (disk s) (root_dir (self s)) = Some q →
  same_outside q (disk s) (disk (Create s).2).
Proof.
  intros (Hid & Hcsvs & Hcrds) Hq. rewrite Create_run. cbv zeta.
  set (root := root_dir (self s)) in *.
  pose proof (createDir_confined q root q (rooted_state s) Hq (is_prefix_refl _)) as C1.
  pose proof (createDir_grows root (rooted_state s)) as G1.
  change (disk (rooted_state s)) with (disk s) in C1.
  destruct (createDir root (rooted_state s)).1; [done|].
  set (s1 := (createDir root (rooted_state s)).2) in *.
  assert (Hself : self s1 = self (rooted_state s)) by apply G1.
  assert (Hq1 : OS.resolve (disk s1) root = Some q).
  { rewrite (resolve_extends _ _ _ (grows_disk _ _ G1)). exact Hq. }
  pose proof (createPackageYAML_grows s1) as G2.
  assert (C2 : same_outside q (disk s1) (disk (createPackageYAML s1).2)).
  { rewrite createPackageYAML_run, Hself.
    eapply createYAML_confined; [|apply is_prefix_snoc].
    apply resolve_in_dir; [exact Hq1|exact Hid|done|simpl; lia]. }
  destruct (createPackageYAML s1).1; [by eapply same_outside_trans|].
  set (s2 := (createPackageYAML s1).2) in *.
  assert (Hself2 : self s2 = self (rooted_state s)) by (by rewrite (grows_self _ _ G2)).
  eapply same_outside_trans; [by eapply same_outside_trans|].
  unfold createBundles, bind, get_self. rewrite Hself2.
  apply createBundles_loop_confined; [|done|by rewrite Hself2].
  rewrite Hself2, (resolve_extends _ _ _ (grows_disk _ _ G2)). exact Hq1.
Qed.

(** X5. With plain names [Create] writes in the package directory only:
    whatever is neither the package directory nor below it is left as it
    was; and when the path of the package directory is empty the disk is
    left as it was altogether. *)
Theorem create_confined s :
  plain_package (singleManifest (self s)) →
  match OS.resolve (disk s) (root_dir (self s)) with
  | Some q => same_outside q (disk s) (disk (Create s).2)
  | None => disk (Create s).2 = disk s
  end.
Proof.
  intros Hplain. destruct (OS.resolve (disk s) (root_dir (self s))) as [q|] eqn:Hq.
  - by apply Create_same_outside.
  - assert (Hm : ∃ pe, OS.Mkdir (root_dir (self s)) perm_dir (disk s) = inl pe).
    { unfold OS.Mkdir. rewrite Hq. by eexists. }
    destruct Hm as [pe Hm]. by destruct (Create_root_fails s pe Hm) as (_ & ? & _).
Qed.

(** X10. [Create] does not roll back: when the package directory was
    made and the package descriptor then fails, [Create] returns that
    error and the directory stays on the disk, for the caller to
    [Delete]. *)
Theorem create_leaves_partial_tree s e :
  (createManifestDir s).1 = None →
  (createPackageYAML (createManifestDir s).2).1 = Some e →
  (Create s).1 = Some e ∧
  is_dir (disk (Create s).2) (root_dir (self s)) ∧
  since s (Create s).2
  = [EvCreateDir (root_dir (self s)) None;
     EvCreateYAML (ObjPackage (Package (singleManifest (self s))))
       (filepath.Join (root_dir (self s))
          (GetPackageID (singleManifest (self s)) +:+ ".package.yaml")) (Some e)].
Proof.
  rewrite createManifestDir_run. intros H1 H2. rewrite Create_run. cbv zeta.
  set (root := root_dir (self s)) in *.
  destruct (createDir_run root (rooted_state s)) as (Hs1 & Hh1 & Hr).
  pose proof (createDir_grows root (rooted_state s)) as G1.
  rewrite H1 in Hr |- *. rewrite H2. cbn [fst snd].
  set (s1 := (createDir root (rooted_state s)).2) in *.
  pose proof (createPackageYAML_grows s1) as G2.
  split_and!; [done| |].
  - pose proof Hr as Hm. apply Mkdir_inr in Hr as (k & pperm & Hk & _ & _ & _ & _ & Hd).
    exists k, (Z.ldiff perm_dir (OS.umask (disk s))).
    rewrite (resolve_extends _ _ _ (grows_disk _ _ G2)),
            (resolve_extends _ _ _ (grows_disk _ _ G1)).
    split; [exact Hk|]. apply (ext_dir _ _ (grows_disk _ _ G2)).
    rewrite Hd. apply lookup_insert_eq.
  - apply since_app. destruct (createYAML_run
        (ObjPackage (Package (singleManifest (self s1))))
        (filepath.Join (manifestDir (self s1))
           (GetPackageID (singleManifest (self s1)) +:+ ".package.yaml")) s1) as (_ & Hh2 & _).
    rewrite <- createPackageYAML_run in Hh2. rewrite H2 in Hh2.
    rewrite Hh2, Hh1, H1, Hs1, <- app_assoc. done.
Qed.

End Further.

(** ** When the builder succeeds *)

Section Success.
Context {Y : Yaml}.











Lemma is_dir_extends d d' p : extends d d' → is_dir d p → is_dir d' p.
Proof.
  intros E (k & perm & Hk & Hp). exists k, perm.
  rewrite (resolve_extends _ _ _ E). split; [done|]. by apply (ext_dir _ _ E).
Qed.

(** A write that succeeds leaves a file holding the serialized object. *)
Lemma createYAML_holds obj file s :
  (createYAML obj file s).1 = None →
  ∃ raw, Marshal obj = Ok raw ∧ holds (disk (createYAML obj file s).2) file raw.
Proof.
  intros E. destruct (createYAML_run obj file s) as (_ & _ & Hr).
  rewrite E in Hr. destruct Hr as (raw & Hraw & Hw). exists raw. split; [done|].
  pose proof (WriteFile_extends _ _ _ _ _ Hw) as Hext.
  apply WriteFile_inr in Hw as (k & Hk & _ & [(_ & _ & Hd)|(fperm & old & _ & Hd)]).
  - exists k, (Z.ldiff perm_file (OS.umask (disk s))).
    rewrite (resolve_extends _ _ _ Hext), Hd. split; [done|]. apply lookup_insert_eq.
  - exists k, fperm.
    rewrite (resolve_extends _ _ _ Hext), Hd. split; [done|]. apply lookup_insert_eq.
Qed.

(** A bundle that succeeds is on the disk. *)
Lemma createBundle_ok csv s :
  (createBundle csv s).1 = None →
  csvVersion csv = Ok (version_of csv) ∧
  String.eqb (version_of csv) EmptyString = false ∧
  bundle_on_disk (self s) csv (disk (createBundle csv s).2).
Proof.
  rewrite createBundle_run, createBundleDir_run. unfold bundle_on_disk, version_of.
  destruct (csvVersion csv) as [v|msg]; [|done].
  destruct (String.eqb v EmptyString) eqn:Ev; [done|]. cbv zeta. cbn [fst snd].
  set (dir := filepath.Join (manifestDir (self s)) v).
  destruct (createDir_run dir s) as (Hself & _ & Hr).
  pose proof (createDir_grows dir s) as G1.
  destruct (createDir dir s).1; [done|].
  set (s1 := (createDir dir s).2) in *.
  assert (Hdir : is_dir (disk s1) dir).
  { pose proof (Mkdir_extends _ _ _ _ Hr) as Hext.
    apply Mkdir_inr in Hr as (k & pperm & Hk & _ & _ & _ & _ & Hd).
    exists k, (Z.ldiff perm_dir (OS.umask (disk s))).
    rewrite (resolve_extends _ _ _ Hext), Hd. split; [done|]. apply lookup_insert_eq. }
  pose proof (createCRDYAMLs_grows csv dir s1) as G2.
  destruct (createCRDYAMLs csv dir s1).1 eqn:R2; [done|].
  set (s2 := (createCRDYAMLs csv dir s1).2) in *.
  pose proof (createYAML_grows (ObjCSV csv) (csv_file dir csv) s2) as G3.
  intros R3. split; [done|]. split; [done|]. split_and!.
  - eapply is_dir_extends; [apply G3|]. eapply is_dir_extends; [apply G2|done].
  - by apply createYAML_holds.
  - revert R2 G3. subst s2. rewrite createCRDYAMLs_run, Hself.
    destruct (csvOwned csv) as [keys|]; [|done]. intros R2 G3.
    exists keys. split; [done|].
    eapply Forall_impl; [apply (createOwned_ok _ _ _ _ _ R2)|].
    intros k (crd & Hk & _ & Hf). exists crd. split; [done|].
    eapply is_file_extends; [apply G3|done].
Qed.






End Success.

(** ** The life of a manifest *)

Section Lifecycle.
Context {Y : Yaml}.






(** X7. [Delete] does not tell a directory it made from one it found.
    When something is already at the package directory, [Create] fails
    and leaves the disk as it was, but it has set the directory of the
    builder; a [Delete] that then succeeds has removed what was there and
    everything below it. *)
Theorem delete_removes_what_create_found s :
  exists_at (disk s) (root_dir (self s)) →
  (Delete (Create s).2).1 = None →
  ∃ k n,
    OS.resolve (disk s) (root_dir (self s)) = Some k ∧
    OS.files (disk s) !! k = Some n ∧
    is_Some (Create s).1 ∧
    disk (Create s).2 = disk s ∧
    ∀ j, OS.is_prefix k j = true → OS.files (disk (Delete (Create s).2).2) !! j = None.
Proof.
  intros (k & n & Hk & Hn) Hdel. exists k, n.
  destruct (Mkdir_taken (root_dir (self s)) perm_dir (disk s) k Hk) as [pe Hm]; [congruence|].
  destruct (Create_root_fails s pe Hm) as (Hres & Hdisk & _).
  destruct (Create_self s) as (_ & _ & Hdir).
  assert (Hne : String.eqb (manifestDir (self (Create s).2)) EmptyString = false).
  { rewrite Hdir. by eapply resolve_not_empty. }
  rewrite (Delete_ok _ Hne), Hdir, Hdisk in Hdel.
  split_and!; [done|done|by rewrite Hres|done|].
  rewrite (Delete_disk _ Hne), Hdir, Hdisk.
  destruct (OS.survives (OS.files (disk s)) k) eqn:Hs.
  - unfold OS.RemoveAll in Hdel. by rewrite Hk, Hn, Hs in Hdel.
  - by destruct (RemoveAll_clean _ _ _ _ Hk Hn Hs) as (_ & Hgone & _).
Qed.

End Lifecycle.

(** ** What the outcome depends on *)

Section Frame.
Context {Y : Yaml}.








End Frame.

(** ** The modes of what is made *)

Section Modes.
Context {Y : Yaml}.

Lemma tidy_refl s : tidy s s.
Proof.
  split; [apply grows_refl|]. intros k Hk. by rewrite Hk.
Qed.

Lemma tidy_trans s1 s2 s3 : tidy s1 s2 → tidy s2 s3 → tidy s1 s3.
Proof.
  intros [G1 A1] [G2 A2]. split; [by eapply grows_trans|].
  intros k Hk. specialize (A1 k Hk).
  pose proof (grows_disk _ _ G1) as E1. pose proof (grows_disk _ _ G2) as E2.
  destruct (OS.files (disk s2) !! k) as [[perm|perm data]|] eqn:H2.
  - by rewrite (ext_dir _ _ E2 _ _ H2).
  - destruct (ext_file _ _ E2 _ _ _ H2) as [data' ->]. done.
  - specialize (A2 k H2). by rewrite (ext_umask _ _ E1) in A2.
Qed.

Lemma createDir_tidy dir s : tidy s (createDir dir s).2.
Proof.
  split; [apply createDir_grows|].
  destruct (createDir_run dir s) as (_ & _ & Hr). intros k Hk.
  destruct (createDir dir s).1.
  - destruct Hr as [-> _]. by rewrite Hk.
  - apply Mkdir_inr in Hr as (k' & pperm & _ & _ & _ & _ & _ & ->).
    cbn [OS.files OS.with_files]. destruct (decide (k' = k)) as [->|Hne].
    + by rewrite lookup_insert_eq.
    + by rewrite lookup_insert_ne, Hk.
Qed.

Lemma createYAML_tidy obj file s : tidy s (createYAML obj file s).2.
Proof.
  split; [apply createYAML_grows|].
  destruct (createYAML_run obj file s) as (_ & _ & Hr). intros k Hk.
  destruct (createYAML obj file s).1.
  - rewrite Hr. by rewrite Hk.
  - destruct Hr as (raw & _ & Hw).
    apply WriteFile_inr in Hw as (k' & _ & _ & [(_ & _ & ->)|(fperm & old & Hold & ->)]);
      cbn [OS.files OS.with_files]; destruct (decide (k' = k)) as [->|Hne].
    + by rewrite lookup_insert_eq.
    + by rewrite lookup_insert_ne, Hk.
    + congruence.
    + by rewrite lookup_insert_ne, Hk.
Qed.

Lemma createOwned_tidy m csv dir keys : ∀ s, tidy s (createOwned m csv dir keys s).2.
Proof.
  induction keys as [|k keys IH]; intros s; [apply tidy_refl|].
  rewrite createOwned_cons. destruct (m !! k) as [crd|]; [|apply tidy_refl].
  pose proof (createYAML_tidy (ObjCRD crd) (crd_file dir crd) s) as T.
  destruct (createYAML (ObjCRD crd) (crd_file dir crd) s).1; [done|].
  eapply tidy_trans; [exact T|apply IH].
Qed.

Lemma createBundle_tidy csv s : tidy s (createBundle csv s).2.
Proof.
  rewrite createBundle_run, createBundleDir_run.
  destruct (csvVersion csv) as [v|]; [|apply tidy_refl].
  destruct (String.eqb v EmptyString); [apply tidy_refl|]. cbv zeta. cbn [fst snd].
  set (dir := filepath.Join (manifestDir (self s)) v).
  pose proof (createDir_tidy dir s) as T1.
  destruct (createDir dir s).1; [done|].
  assert (T2 : tidy (createDir dir s).2 (createCRDYAMLs csv dir (createDir dir s).2).2).
  { rewrite createCRDYAMLs_run. destruct (csvOwned csv); [apply createOwned_tidy|apply tidy_refl]. }
  destruct (createCRDYAMLs csv dir (createDir dir s).2).1; [by eapply tidy_trans|].
  eapply tidy_trans; [by eapply tidy_trans|]. apply createYAML_tidy.
Qed.

Lemma createBundles_loop_tidy csvs : ∀ s, tidy s (createBundles_loop csvs s).2.
Proof.
  induction csvs as [|csv csvs IH]; intros s; [apply tidy_refl|].
  rewrite createBundles_loop_cons. eapply tidy_trans; [apply createBundle_tidy|apply IH].
Qed.

(** X11. Whatever [Create] adds to the disk has the modes of the
    builder: a name that was free holds afterwards nothing, or a
    directory of mode 0700 less the umask, or a file of mode 0666 less
    the umask. *)
Theorem create_adds_with_builder_modes s k :
  OS.files (disk s) !! k = None →
  match OS.files (disk (Create s).2) !! k with
  | None => True
  | Some (OS.Dir perm) => perm = Z.ldiff 448 (OS.umask (disk s))
  | Some (OS.File perm _) => perm = Z.ldiff 438 (OS.umask (disk s))
  end.
Proof.
  revert k. change (adds_with_modes (disk s) (disk (Create s).2)).
  change (disk s) with (disk (rooted_state s)).
  assert (T : tidy (rooted_state s) (Create s).2); [|apply T].
  rewrite Create_run. cbv zeta.
  pose proof (createDir_tidy (root_dir (self s)) (rooted_state s)) as T1.
  destruct (createDir _ _).1; [done|].
  set (s1 := (createDir (root_dir (self s)) (rooted_state s)).2) in *.
  assert (T2 : tidy s1 (createPackageYAML s1).2)
    by (rewrite createPackageYAML_run; apply createYAML_tidy).
  destruct (createPackageYAML s1).1; [by eapply tidy_trans|].
  eapply tidy_trans; [by eapply tidy_trans|].
  unfold createBundles, bind, get_self. apply createBundles_loop_tidy.
Qed.

(** X12. [Delete] only removes, and only in the directory of the
    builder: an entry that is on the disk afterwards was there before,
    unchanged, and whatever is neither that directory nor below it is
    left as it was. *)
Theorem delete_confined s j :
  (OS.files (disk (Delete s).2) !! j = None ∨
   OS.files (disk (Delete s).2) !! j = OS.files (disk s) !! j) ∧
  match OS.resolve (disk s) (manifestDir (self s)) with
  | Some q => OS.is_prefix q j = false →
              OS.files (disk (Delete s).2) !! j = OS.files (disk s) !! j
  | None => disk (Delete s).2 = disk s
  end.
Proof.
  rewrite Delete_run. destruct (String.eqb (manifestDir (self s)) EmptyString) eqn:E.
  { split; [by right|]. unfold OS.resolve. rewrite E. done. }
  cbv zeta. cbn [snd disk]. unfold OS.RemoveAll.
  destruct (OS.resolve (disk s) (manifestDir (self s))) as [q|]; [|by split; [right|]].
  destruct (OS.files (disk s) !! q) as [n|]; [|by split; [right|]].
  cbn [snd OS.files OS.with_files]. split.
  - destruct (filter _ (OS.files (disk s)) !! j) as [x|] eqn:Hf; [|by left].
    right. by apply map_lookup_filter_Some in Hf as [-> _].
  - intros Hj. destruct (OS.files (disk s) !! j) as [x|] eqn:Hx.
    + apply map_lookup_filter_Some. split; [done|]. unfold OS.removed. simpl. by rewrite Hj.
    + apply map_lookup_filter_None. by left.
Qed.

Lemma Mkdir_exists name perm d k pperm n :
  OS.resolve d name = Some k → k ≠ [] →
  OS.files d !! OS.parent k = Some (OS.Dir pperm) → OS.files d !! k = Some n →
  OS.Mkdir name perm d = inl {| OS.Op := "mkdir"; OS.Path := name; OS.Err := OS.EEXIST |}.
Proof.
  intros Hk Hne Hp Hn. unfold OS.Mkdir. rewrite Hk. destruct k; [done|]. by rewrite Hp, Hn.
Qed.

(** X13. Of two releases with the same version only the first is
    materialized: after a bundle that succeeded, the bundle of a release
    with the same version fails with "file exists" on the bundle
    directory, calls nothing else and leaves the disk as it is. *)
Theorem same_version_refused csv csv' s :
  (createBundle csv s).1 = None → csvVersion csv' = csvVersion csv →
  let s1 := (createBundle csv s).2 in
  let dir := filepath.Join (manifestDir (self s)) (version_of csv) in
  let e := CreatingDir
             (PathErr {| OS.Op := "mkdir"; OS.Path := dir; OS.Err := OS.EEXIST |}) dir in
  (createBundle csv' s1).1 = Some e ∧
  disk (createBundle csv' s1).2 = disk s1 ∧
  since s1 (createBundle csv' s1).2 = [EvCreateDir dir (Some e)].
Proof.
  intros Hok Hsame. cbv zeta.
  pose proof (createBundle_grows csv s) as G.
  destruct (createBundle_ok csv s Hok) as (Hv & Hne & _).
  assert (Hmk : ∃ k pperm n,
             OS.resolve (disk (createBundle csv s).2)
               (filepath.Join (manifestDir (self s)) (version_of csv)) = Some k ∧ k ≠ [] ∧
             OS.files (disk (createBundle csv s).2) !! OS.parent k = Some (OS.Dir pperm) ∧
             OS.files (disk (createBundle csv s).2) !! k = Some n).
  { revert Hok G. rewrite createBundle_run, createBundleDir_run, Hv, Hne. cbv zeta.
    cbn [fst snd]. set (dir := filepath.Join (manifestDir (self s)) (version_of csv)).
    destruct (createDir_run dir s) as (_ & _ & Hr).
    pose proof (createDir_grows dir s) as G1.
    destruct (createDir dir s).1; [done|].
    set (s1 := (createDir dir s).2) in *.
    set (rest := match (createCRDYAMLs csv dir s1).1 with Some e => _ | None => _ end).
    intros _ G.
    assert (G2 : extends (disk s1) (disk rest.2)).
    { subst rest. pose proof (createCRDYAMLs_grows csv dir s1) as G2.
      destruct (createCRDYAMLs csv dir s1).1; [apply G2|].
      eapply extends_trans; [apply G2|apply createYAML_grows]. }
    pose proof (Mkdir_extends _ _ _ _ Hr) as Hext.
    apply Mkdir_inr in Hr as (k & pperm & Hk & Hk0 & Hp & _ & _ & Hd).
    exists k, pperm, (OS.Dir (Z.ldiff perm_dir (OS.umask (disk s)))). split_and!.
    - by rewrite (resolve_extends _ _ _ (grows_disk _ _ G)).
    - done.
    - apply (ext_dir _ _ G2). by apply (ext_dir _ _ Hext).
    - apply (ext_dir _ _ G2). rewrite Hd. apply lookup_insert_eq. }
  destruct Hmk as (k & pperm & n & Hk & Hk0 & Hp & Hn).
  set (s1 := (createBundle csv s).2) in *.
  set (dir := filepath.Join (manifestDir (self s)) (version_of csv)) in *.
  pose proof (Mkdir_exists dir perm_dir (disk s1) k pperm n Hk Hk0 Hp Hn) as Hm.
  rewrite createBundle_run, createBundleDir_run, Hsame, Hv, Hne. cbv zeta. cbn [fst snd].
  rewrite (grows_self _ _ G). fold dir.
  destruct (createDir_run dir s1) as (_ & _ & Hr).
  pose proof (createDir_since dir s1) as Hs.
  destruct (createDir dir s1).1 as [e|]; [|congruence].
  destruct Hr as (Hd & pe' & Hm' & ->). rewrite Hm in Hm'. injection Hm' as <-.
  cbn [fst snd]. done.
Qed.

End Modes.

(** ** The layout of the tree *)

Section Layout.
Context {Y : Yaml}.

(** X14. The paths the builder derives are those of the registry
    layout.  When the parent directory names [p], the identifier and the
    version are plain names and the names hold no separator, the package
    directory is [p/<id>], the package descriptor
    [p/<id>/<id>.package.yaml], the bundle directory [p/<id>/<version>],
    the release descriptor [p/<id>/<version>/<name>.csv.yaml] and an
    owned definition [p/<id>/<version>/<name>.crd.yaml]. *)
Theorem manifest_layout d b csv crd p :
  let id := GetPackageID (singleManifest b) in
  let version := version_of csv in
  let root := root_dir b in
  let dir := filepath.Join root version in
  OS.resolve d (registryDir b) = Some p →
  simple_name id = true → simple_name version = true →
  has_sep (csvName csv) = false → has_sep (crdName crd) = false →
  OS.resolve d root = Some (p ++ [id]) ∧
  OS.resolve d (filepath.Join root (id +:+ ".package.yaml"))
  = Some (p ++ [id; id +:+ ".package.yaml"]) ∧
  OS.resolve d dir = Some (p ++ [id; version]) ∧
  OS.resolve d (csv_file dir csv) = Some (p ++ [id; version; csvName csv +:+ ".csv.yaml"]) ∧
  OS.resolve d (crd_file dir crd) = Some (p ++ [id; version; crdName crd +:+ ".crd.yaml"]).
Proof.
  cbv zeta. intros Hp Hid Hv Hcsv Hcrd.
  set (id := GetPackageID (singleManifest b)) in *. set (v := version_of csv) in *.
  assert (Hsep : has_sep id = false).
  { unfold simple_name in Hid. apply andb_true_iff in Hid as [_ H]. by apply negb_true_iff in H. }
  assert (Hroot : OS.resolve d (root_dir b) = Some (p ++ [id])).
  { unfold root_dir. fold id. rewrite resolve_Join, Hp; [done|by eapply resolve_not_empty|done]. }
  assert (Hdir : OS.resolve d (filepath.Join (root_dir b) v) = Some ((p ++ [id]) ++ [v])).
  { rewrite resolve_Join, Hroot; [done|by eapply resolve_not_empty|done]. }
  split_and!.
  - done.
  - rewrite (resolve_in_dir d _ _ id ".package.yaml" Hroot); [|done..|simpl; lia].
    by rewrite <- app_assoc.
  - rewrite Hdir. by rewrite <- app_assoc.
  - unfold csv_file.
    rewrite (resolve_in_dir d _ _ (csvName csv) ".csv.yaml" Hdir); [|done..|simpl; lia].
    by rewrite <- !app_assoc.
  - unfold crd_file, GetName.
    rewrite (resolve_in_dir d _ _ (crdName crd) ".crd.yaml" Hdir); [|done..|simpl; lia].
    by rewrite <- !app_assoc.
Qed.

(** X15. What the nil of [Create] stands for whatever the package: the
    package directory is on the disk, the package descriptor is a file
    in place, and the builder remembers the directory. *)
Theorem create_success_guarantee s :
  (Create s).1 = None →
  manifestDir (self (Create s).2) = root_dir (self s) ∧
  is_dir (disk (Create s).2) (root_dir (self s)) ∧
  is_file (disk (Create s).2)
    (filepath.Join (root_dir (self s))
       (GetPackageID (singleManifest (self s)) +:+ ".package.yaml")).
Proof.
  intros Hok. destruct (Create_self s) as (_ & _ & Hdir). split; [done|].
  revert Hok. rewrite Create_run. cbv zeta.
  set (root := root_dir (self s)) in *.
  destruct (createDir_run root (rooted_state s)) as (Hself1 & _ & Hr).
  pose proof (createDir_grows root (rooted_state s)) as G1.
  destruct (createDir root (rooted_state s)).1; [done|].
  set (s1 := (createDir root (rooted_state s)).2) in *.
  assert (Hroot : is_dir (disk s1) root).
  { pose proof (Mkdir_extends _ _ _ _ Hr) as Hext.
    apply Mkdir_inr in Hr as (k & pperm & Hk & _ & _ & _ & _ & Hd).
    exists k, (Z.ldiff perm_dir (OS.umask (disk s))).
    rewrite (resolve_extends _ _ _ Hext), Hd. split; [done|]. apply lookup_insert_eq. }
  pose proof (createPackageYAML_grows s1) as G2.
  pose proof (createYAML_is_file (ObjPackage (Package (singleManifest (self s1))))
                (filepath.Join (manifestDir (self s1))
                   (GetPackageID (singleManifest (self s1)) +:+ ".package.yaml")) s1) as Hfile.
  rewrite <- createPackageYAML_run in Hfile. rewrite Hself1 in Hfile.
  destruct (createPackageYAML s1).1; [done|]. intros _.
  pose proof (createBundles_grows (createPackageYAML s1).2) as G3.
  split.
  - eapply is_dir_extends; [apply G3|]. eapply is_dir_extends; [apply G2|done].
  - eapply is_file_extends; [apply G3|]. by apply Hfile.
Qed.

End Layout.

(** ** The properties at concrete packages *)

Import Fixtures.
#[local] Existing Instance yaml_plain.
#[local] Existing Instance fmt_plain.

(** The scenario of the specification: package [etcd] with release
    0.6.1 gives the package descriptor, the owned definition and the
    release descriptor, and [Delete] then removes [/reg/etcd]. *)
Example create_delete_etcd :
  let s := fresh etcd "/reg" disk_reg in
  (Create s).1 = None ∧
  is_file (disk (Create s).2) "/reg/etcd/etcd.package.yaml" ∧
  is_file (disk (Create s).2)
    "/reg/etcd/0.6.1/etcdclusters.etcd.database.coreos.com.crd.yaml" ∧
  is_file (disk (Create s).2) "/reg/etcd/0.6.1/etcdoperator.v0.6.1.csv.yaml" ∧
  (Delete (Create s).2).1 = None ∧
  OS.files (disk (Delete (Create s).2).2) = OS.files disk_reg.
Proof.
  cbv zeta. split_and!; try (vm_compute; reflexivity);
    eexists _, _, _; split; vm_compute; reflexivity.
Qed.

(** C1. [Create] does not return the error of a release that fails:
    with a first release without version and a second one that is fine,
    the bundle of the first fails with the missing-version error, yet
    [Create] reports success and goes on to materialize the second.
    The error is lost in [createBundles], which drops what
    [createBundle] returns. *)
Theorem create_hides_bundle_failure :
  let s := fresh (package "etcd" [crd_clusters] [csv_unversioned; csv_090]) "/reg" disk_reg in
  let s2 := (createPackageYAML (createManifestDir s).2).2 in
  (createBundle csv_unversioned s2).1 = Some MissingVersion ∧
  (Create s).1 = None ∧
  since s (Create s).2
  = [EvCreateDir "/reg/etcd" None;
     EvCreateYAML (ObjPackage (Package (singleManifest (self s))))
       "/reg/etcd/etcd.package.yaml" None;
     EvCreateDir "/reg/etcd/0.9.0" None;
     EvCreateYAML (ObjCRD crd_clusters)
       "/reg/etcd/0.9.0/etcdclusters.etcd.database.coreos.com.crd.yaml" None;
     EvCreateYAML (ObjCSV csv_090) "/reg/etcd/0.9.0/etcdoperator.v0.9.0.csv.yaml" None].
Proof. cbv zeta. split_and!; vm_compute; reflexivity. Qed.

(** C2. [Create] returns success with a release missing from the tree:
    two releases share version 0.6.1, each with a version and with
    owned keys that resolve; the second [Mkdir] fails, the second
    release gets no descriptor, and [Create] reports success all the
    same, by the defect of C1. *)
Theorem create_succeeds_without_release :
  let s := fresh (package "etcd" [crd_clusters] [csv_061; csv_061']) "/reg" disk_reg in
  let missing := ["reg"; "etcd"; "0.6.1"; "etcdoperator.v0.6.1-b.csv.yaml"] in
  (Create s).1 = None ∧
  OS.resolve (disk (Create s).2) (csv_file "/reg/etcd/0.6.1" csv_061') = Some missing ∧
  OS.files (disk (Create s).2) !! missing = None ∧
  last (history (Create s).2)
  = Some (EvCreateDir "/reg/etcd/0.6.1"
            (Some (CreatingDir
                     (PathErr {| OS.Op := "mkdir"; OS.Path := "/reg/etcd/0.6.1";
                                 OS.Err := OS.EEXIST |})
                     "/reg/etcd/0.6.1"))).
Proof. cbv zeta. split_and!; vm_compute; reflexivity. Qed.

(** C3, as stated, fails: a release without version that owns a key
    the package does not hold fails with the missing-version error, and
    a release whose first owned definition cannot be serialized fails
    with that error; neither names the missing key. *)
Lemma unresolved_reference_other_error :
  (let s := rooted (package "etcd" [crd_clusters] [csv_unversioned_dangling]) disk_reg in
   csvOwned csv_unversioned_dangling = Ok [key_backups] ∧
   crdMap (CustomResourceDefinitions (singleManifest (self s))) !! key_backups = None ∧
   (createBundle csv_unversioned_dangling s).1 = Some MissingVersion) ∧
  (let s := rooted (package "etcd" [crd_blank] [csv_dangling]) disk_reg in
   csvOwned csv_dangling = Ok [key_clusters; key_backups] ∧
   crdMap (CustomResourceDefinitions (singleManifest (self s))) !! key_backups = None ∧
   (createBundle (Y := yaml_strict) csv_dangling s).1
   = Some (Marshaling (ObjCRD crd_blank) (Foreign "json: unexpected end of JSON input"))).
Proof. cbv zeta. split_and!; vm_compute; reflexivity. Qed.

Lemma unresolved_reference_aborts_witness :
  let s := rooted (package "etcd" [crd_clusters] [csv_dangling]) disk_reg in
  csvOwned csv_dangling = Ok ([key_clusters] ++ key_backups :: []) ∧
  crdMap (CustomResourceDefinitions (singleManifest (self s))) !! key_backups = None ∧
  (createBundle csv_dangling s).1
  = Some (OwnedNotFound key_backups "etcdoperator.v0.9.2") ∧
  Error (OwnedNotFound key_backups "etcdoperator.v0.9.2")
  = "Owned CRD etcd.database.coreos.com/v1beta2/EtcdBackup for CSV etcdoperator.v0.9.2 not found".
Proof.
  cbv zeta.
  set (s := rooted (package "etcd" [crd_clusters] [csv_dangling]) disk_reg).
  set (m := crdMap (CustomResourceDefinitions (singleManifest (self s)))).
  assert (Hk : m !! key_backups = None) by (vm_compute; reflexivity).
  split; [reflexivity|]. split; [exact Hk|].
  destruct (unresolved_reference_aborts csv_dangling s [key_clusters] key_backups []
              eq_refl Hk) as (_ & _ & H).
  set (s1 := (createBundleDir csv_dangling s).2).
  assert (H1 : createBundleDir csv_dangling s = (("/reg/etcd/0.9.2", None), s1))
    by (vm_compute; reflexivity).
  assert (H2 : createOwned m csv_dangling "/reg/etcd/0.9.2" [key_clusters] s1
               = (None, (createOwned m csv_dangling "/reg/etcd/0.9.2" [key_clusters] s1).2))
    by (vm_compute; reflexivity).
  destruct (H _ _ _ H1 H2) as [H3 H4].
  split; [|vm_compute; reflexivity]. rewrite H3. reflexivity.
Defined.

Lemma missing_version_fails_witness :
  let s := rooted etcd disk_reg in
  version_missing csv_unversioned ∧
  createBundle csv_unversioned s = (Some MissingVersion, s).
Proof.
  cbv zeta. split; [reflexivity|].
  destruct (missing_version_fails csv_unversioned (rooted etcd disk_reg) eq_refl)
    as (e & H & -> & _).
  exact H.
Defined.

(** C6, as stated, fails for files: under umask 0 the package
    descriptor is created with mode 0666, which group and others may
    write. *)
Lemma file_mode_group_writable :
  let s := rooted etcd disk_open in
  (createPackageYAML s).1 = None ∧
  OS.files (disk (createPackageYAML s).2) !! ["reg"; "etcd"; "etcd.package.yaml"]
  = Some (OS.File 438 "packageName: etcd") ∧
  Z.testbit 438 4 = true ∧ Z.testbit 438 1 = true.
Proof. cbv zeta. split_and!; vm_compute; reflexivity. Qed.




Lemma create_again_fails_witness :
  let s := (Create (fresh etcd "/reg" disk_reg)).2 in
  (Create s).1
  = Some (CreatingDir
            (PathErr {| OS.Op := "mkdir"; OS.Path := "/reg/etcd"; OS.Err := OS.EEXIST |})
            "/reg/etcd") ∧
  disk (Create s).2 = disk s.
Proof.
  cbv zeta.
  destruct (create_again_fails (Create (fresh etcd "/reg" disk_reg)).2
              (or_introl (ex_intro _ (fresh etcd "/reg" disk_reg) eq_refl)))
    as (pe & _ & _ & _ & H & _).
  split; [vm_compute; reflexivity|exact H].
Defined.

Lemma duplicate_key_latest_wins_witness :
  let s := rooted (package "etcd" [crd_clusters; crd_clusters'] [csv_061]) disk_reg in
  crdMap [crd_clusters; crd_clusters'] !! key_clusters = Some crd_clusters' ∧
  createCRDYAMLs csv_061 "/reg/etcd/0.6.1" s
  = (createCRDYAML crd_clusters' "/reg/etcd/0.6.1"
     >>? createOwned (crdMap [crd_clusters; crd_clusters']) csv_061 "/reg/etcd/0.6.1" []) s.
Proof.
  cbv zeta.
  exact (duplicate_key_latest_wins csv_061 "/reg/etcd/0.6.1"
           (rooted (package "etcd" [crd_clusters; crd_clusters'] [csv_061]) disk_reg)
           [crd_clusters] crd_clusters' [] []
           eq_refl (Forall_nil_2 _) eq_refl).
Defined.



Lemma created_modes_witness :
  let s := fresh etcd "/reg" disk_reg in
  let s1 := (createDir "/reg/etcd" s).2 in
  OS.files (disk s1) !! ["reg"; "etcd"] = Some (OS.Dir 448) ∧
  OS.files (disk (createYAML (ObjPackage (Package etcd)) "/reg/etcd/etcd.package.yaml" s1).2)
    !! ["reg"; "etcd"; "etcd.package.yaml"]
  = Some (OS.File 420 "packageName: etcd").
Proof.
  cbv zeta. set (s := fresh etcd "/reg" disk_reg). set (s1 := (createDir "/reg/etcd" s).2).
  destruct (created_modes (ObjPackage (Package etcd)) "/reg/etcd"
              "/reg/etcd/etcd.package.yaml" s) as (Hd & _ & _).
  destruct (created_modes (ObjPackage (Package etcd)) "/reg/etcd"
              "/reg/etcd/etcd.package.yaml" s1) as (_ & Hf & _).
  split.
  - destruct (Hd ltac:(vm_compute; reflexivity)) as (k & Hk & _ & Hperm & _).
    assert (Hr : OS.resolve (disk s) "/reg/etcd" = Some ["reg"; "etcd"])
      by (vm_compute; reflexivity).
    rewrite Hr in Hk. injection Hk as <-. exact Hperm.
  - destruct (Hf ltac:(vm_compute; reflexivity)) as (k & raw & Hk & Hraw & Hperm).
    assert (Hr : OS.resolve (disk s1) "/reg/etcd/etcd.package.yaml"
                 = Some ["reg"; "etcd"; "etcd.package.yaml"]) by (vm_compute; reflexivity).
    rewrite Hr in Hk. injection Hk as <-. injection Hraw as <-.
    assert (Hfree : OS.files (disk s1) !! ["reg"; "etcd"; "etcd.package.yaml"] = None)
      by (vm_compute; reflexivity).
    rewrite Hfree in Hperm. exact Hperm.
Defined.


(** ** The further properties at concrete packages *)

Lemma etcd_plain : plain_package etcd.
Proof. split_and!; [reflexivity| |]; repeat constructor. Qed.



Lemma bundle_dir_taken_witness :
  let s := (createBundle csv_061 (rooted etcd disk_reg)).2 in
  exists_at (disk s) "/reg/etcd/0.6.1" ∧
  (createBundle csv_061' s).1
  = Some (CreatingDir
            (PathErr {| OS.Op := "mkdir"; OS.Path := "/reg/etcd/0.6.1"; OS.Err := OS.EEXIST |})
            "/reg/etcd/0.6.1") ∧
  disk (createBundle csv_061' s).2 = disk s.
Proof.
  cbv zeta. set (s := (createBundle csv_061 (rooted etcd disk_reg)).2).
  assert (Hex : exists_at (disk s) (filepath.Join (manifestDir (self s)) "0.6.1")).
  { exists ["reg"; "etcd"; "0.6.1"], (OS.Dir 448). split; vm_compute; reflexivity. }
  split; [exact Hex|].
  destruct (bundle_dir_taken csv_061' s "0.6.1" eq_refl eq_refl Hex) as (pe & _ & _ & _ & H & _).
  split; [vm_compute; reflexivity|exact H].
Defined.

Lemma create_confined_witness :
  let s := fresh etcd "/reg" disk_taken in
  OS.files (disk (Create s).2) !! ["reg"] = OS.files (disk s) !! ["reg"] ∧
  OS.files (disk (Create s).2) !! [] = OS.files (disk s) !! [].
Proof.
  cbv zeta. set (s := fresh etcd "/reg" disk_taken).
  pose proof (create_confined s etcd_plain) as H.
  assert (Hr : OS.resolve (disk s) (root_dir (self s)) = Some ["reg"; "etcd"])
    by (vm_compute; reflexivity).
  rewrite Hr in H. split; apply H; reflexivity.
Defined.

Lemma create_leaves_partial_tree_witness :
  let s := fresh etcd_blank "/reg" disk_reg in
  let e := Marshaling (ObjPackage (Package etcd_blank))
             (Foreign "json: unexpected end of JSON input") in
  (Create (Y := yaml_strict) s).1 = Some e ∧
  is_dir (disk (Create (Y := yaml_strict) s).2) (root_dir (self s)).
Proof.
  cbv zeta. set (s := fresh etcd_blank "/reg" disk_reg).
  destruct (create_leaves_partial_tree (Y := yaml_strict) s
              (Marshaling (ObjPackage (Package etcd_blank))
                 (Foreign "json: unexpected end of JSON input"))
              ltac:(vm_compute; reflexivity) ltac:(vm_compute; reflexivity)) as (H1 & H2 & _).
  split; [exact H1|exact H2].
Defined.



Lemma delete_removes_what_create_found_witness :
  let s := fresh etcd "/reg" disk_taken in
  OS.files (disk s) !! ["reg"; "etcd"; "notes"] = Some (OS.File 420 "keep") ∧
  is_Some (Create s).1 ∧
  OS.files (disk (Delete (Create s).2).2) !! ["reg"; "etcd"; "notes"] = None.
Proof.
  cbv zeta. set (s := fresh etcd "/reg" disk_taken).
  assert (Hex : exists_at (disk s) (root_dir (self s))).
  { exists ["reg"; "etcd"], (OS.Dir 493). split; vm_compute; reflexivity. }
  destruct (delete_removes_what_create_found s Hex ltac:(vm_compute; reflexivity))
    as (k & n & Hk & _ & Hfail & _ & Hgone).
  assert (Hr : OS.resolve (disk s) (root_dir (self s)) = Some ["reg"; "etcd"])
    by (vm_compute; reflexivity).
  rewrite Hr in Hk. injection Hk as <-.
  split; [vm_compute; reflexivity|]. split; [exact Hfail|]. apply Hgone. reflexivity.
Defined.


Lemma create_adds_with_builder_modes_witness :
  let s := fresh etcd "/reg" disk_reg in
  OS.files (disk s) !! ["reg"; "etcd"; "0.6.1"] = None ∧
  OS.files (disk (Create s).2) !! ["reg"; "etcd"; "0.6.1"] = Some (OS.Dir 448).
Proof.
  cbv zeta. set (s := fresh etcd "/reg" disk_reg).
  assert (Hfree : OS.files (disk s) !! ["reg"; "etcd"; "0.6.1"] = None)
    by (vm_compute; reflexivity).
  split; [exact Hfree|].
  pose proof (create_adds_with_builder_modes s ["reg"; "etcd"; "0.6.1"] Hfree) as H.
  assert (Hdir : ∃ perm, OS.files (disk (Create s).2) !! ["reg"; "etcd"; "0.6.1"]
                         = Some (OS.Dir perm)) by (eexists; vm_compute; reflexivity).
  destruct Hdir as [perm Hdir]. rewrite Hdir in H |- *. rewrite H. reflexivity.
Defined.

Lemma same_version_refused_witness :
  let s := rooted (package "etcd" [crd_clusters] [csv_061; csv_061']) disk_reg in
  let s1 := (createBundle csv_061 s).2 in
  (createBundle csv_061 s).1 = None ∧
  (createBundle csv_061' s1).1
  = Some (CreatingDir
            (PathErr {| OS.Op := "mkdir"; OS.Path := "/reg/etcd/0.6.1"; OS.Err := OS.EEXIST |})
            "/reg/etcd/0.6.1") ∧
  disk (createBundle csv_061' s1).2 = disk s1.
Proof.
  cbv zeta. set (s := rooted (package "etcd" [crd_clusters] [csv_061; csv_061']) disk_reg).
  assert (Hok : (createBundle csv_061 s).1 = None) by (vm_compute; reflexivity).
  split; [exact Hok|].
  destruct (same_version_refused csv_061 csv_061' s Hok eq_refl) as (H1 & H2 & _).
  split; [exact H1|exact H2].
Defined.

Lemma manifest_layout_witness :
  let b := NewManifest etcd "/reg" in
  OS.resolve disk_reg (root_dir b) = Some ["reg"; "etcd"] ∧
  OS.resolve disk_reg (csv_file (filepath.Join (root_dir b) "0.6.1") csv_061)
  = Some ["reg"; "etcd"; "0.6.1"; "etcdoperator.v0.6.1.csv.yaml"] ∧
  OS.resolve disk_reg (crd_file (filepath.Join (root_dir b) "0.6.1") crd_clusters)
  = Some ["reg"; "etcd"; "0.6.1"; "etcdclusters.etcd.database.coreos.com.crd.yaml"].
Proof.
  cbv zeta.
  destruct (manifest_layout disk_reg (NewManifest etcd "/reg") csv_061 crd_clusters ["reg"]
              eq_refl eq_refl eq_refl eq_refl eq_refl) as (H1 & _ & _ & H4 & H5).
  split; [exact H1|]. split; [exact H4|exact H5].
Defined.

Lemma create_success_guarantee_witness :
  let s := fresh etcd "/reg" disk_reg in
  (Create s).1 = None ∧
  is_dir (disk (Create s).2) "/reg/etcd" ∧
  is_file (disk (Create s).2) "/reg/etcd/etcd.package.yaml".
Proof.
  cbv zeta. set (s := fresh etcd "/reg" disk_reg).
  assert (Hok : (Create s).1 = None) by (vm_compute; reflexivity).
  split; [exact Hok|].
  destruct (create_success_guarantee s Hok) as (_ & H1 & H2).
  split; [exact H1|exact H2].
Defined.
